(** * Smarttask-app: the task prioritisation and insight engine

    A shallow embedding of the decision logic of [smart-task-app.jsx]
    (the object [AIEngine] and the helper [getAnalytics]) and the
    properties its specification states about it.

    Modelling conventions.
    - A JavaScript number is an IEEE 754 binary64 value, with the
      operations of [SpecFloat] at precision 53: every sum, difference,
      product and quotient is rounded to nearest, ties to even, and
      overflows to an infinity; [0 / 0], [0 * Infinity] and
      [Infinity - Infinity] are NaN.  A decimal literal, a number typed
      in a field and an integer stand for the binary64 value nearest to
      them ([JS.Fin]).  The hours until a deadline, which the alert
      classifier only compares with [0], [24] and [72], are kept exact.
    - A point in time (an ISO date string in the source, parsed with
      [new Date(..)]) is its number of milliseconds since the epoch; an
      absent or empty string is [None].  Strings that do not parse as a
      date are outside the model.
    - [new Date()] is read once per call of [getProductivityTip],
      [getNotifications] and [getAnalytics]: these take the current
      instant [now] as an argument.  The comparator of [suggestOrder]
      calls [Date.now()] up to twice in every comparison: the ranking
      takes a [Clock], the instants read during the call.
    - The local calendar ([toDateString], [setDate]) belongs to the
      runtime; it is the interface [Calendar]. *)

From Stdlib Require Import Ascii QArith Qround Qabs Qpower Lqa Sorted SpecFloat.
From stdpp Require Import gmap strings list pretty.

Open Scope Z_scope.

(** ** JavaScript numbers and the built-ins the engine calls *)

Module JS.

(** A number: a signed zero, a signed infinity, NaN, or the finite value
    [(-1)^s * m * 2^e]. *)
Definition number : Type := spec_float.

Definition prec : Z := 53.
Definition emax : Z := 1024.

Definition NaN : number := S754_nan.
Definition PosInf : number := S754_infinity false.
Definition NegInf : number := S754_infinity true.

(** The binary64 value nearest to a rational, ties to even: the value of
    a decimal literal, of [Number(text)], of an integer.  The quotient
    of numerator by denominator is rounded once. *)
Definition Fin (q : Q) : number :=
  match Qnum q with
  | Z0 => S754_zero false
  | Zpos n => SFdiv prec emax (S754_finite false n 0) (S754_finite false (Qden q) 0)
  | Zneg n => SFdiv prec emax (S754_finite true n 0) (S754_finite false (Qden q) 0)
  end.

(** An integer held exactly (a length, a count): [z * 2^0]. *)
Definition integer (z : Z) : number :=
  match z with
  | Z0 => S754_zero false
  | Zpos p => S754_finite false p 0
  | Zneg p => S754_finite true p 0
  end.

Definition add : number -> number -> number := SFadd prec emax.
Definition sub : number -> number -> number := SFsub prec emax.
Definition mul : number -> number -> number := SFmul prec emax.
Definition div : number -> number -> number := SFdiv prec emax.

Definition isNaN (x : number) : bool :=
  match x with S754_nan => true | _ => false end.

(** The rational a zero or a finite value stands for ([0] for the
    others). *)
Definition value (x : number) : Q :=
  match x with
  | S754_finite s m e => inject_Z (cond_Zopp s (Zpos m)) * 2 ^ e
  | _ => 0
  end.

(** [-1], [0], [1]: minus infinity, the zeros and the finite values,
    plus infinity. *)
Definition side (x : number) : Z :=
  match x with
  | S754_infinity true => -1
  | S754_infinity false => 1
  | _ => 0
  end.

(** [x < y]; false as soon as one side is NaN. *)
Definition lt (x y : number) : bool :=
  negb (isNaN x) && negb (isNaN y)
  && ((side x <? side y)
      || (side x =? 0) && (side y =? 0) && negb (Qle_bool (value y) (value x))).

(** [x <= y]; false as soon as one side is NaN. *)
Definition le (x y : number) : bool :=
  negb (isNaN x) && negb (isNaN y)
  && ((side x <? side y)
      || (side x =? side y) && Qle_bool (value x) (value y)).

(** ToBoolean on a number: the zeros and NaN are falsy. *)
Definition truthy (x : number) : bool :=
  match x with
  | S754_zero _ | S754_nan => false
  | _ => true
  end.

(** [o || d] for a property read [o] that may be [undefined]. *)
Definition or_else (o : option number) (d : number) : number :=
  match o with
  | Some v => if truthy v then v else d
  | None => d
  end.

(** [x === Infinity] *)
Definition is_Infinity (x : number) : bool :=
  match x with S754_infinity false => true | _ => false end.

(** The exponent of a finite value is not below that of the least
    subnormal; every result of an operation is so. *)
Definition in_range (x : number) : Prop :=
  match x with
  | S754_finite _ _ e => emin prec emax <= e
  | _ => True
  end.

(** [Math.round] on a finite value: the nearest integer, ties towards
    positive infinity. *)
Definition Math_round (q : Q) : Z := Qfloor (q + (1 # 2))%Q.

Section Sort.
Context {A S : Type} (comparefn : A -> A -> S -> number * S).

(** [Array.prototype.sort] with a comparator that may read and change a
    state (here, the clock): [x] goes after [y] when [comparefn(x, y)]
    is greater than zero, and a result that is zero or NaN keeps the two
    in their input order.  The language leaves to the engine the order
    in which the comparator is called, and the result when the
    comparator is not a consistent ordering.  Insertion from the right
    is the algorithm written here; for a comparator that is a consistent
    ordering and reads no state, every stable sort returns the same
    array (see [StableSort.stable_sort_unique]). *)
Definition after (v : number) : bool := lt (S754_zero false) v.

Fixpoint insert (x : A) (l : list A) (s : S) : list A * S :=
  match l with
  | [] => ([x], s)
  | y :: l' =>
      let (v, s) := comparefn x y s in
      if after v then
        let (l'', s) := insert x l' s in (y :: l'', s)
      else (x :: y :: l', s)
  end.

Fixpoint sort (l : list A) (s : S) : list A * S :=
  match l with
  | [] => ([], s)
  | x :: l' => let (sorted, s) := sort l' s in insert x sorted s
  end.
End Sort.

(** Two elements that a comparator [(a, b) => key(b) - key(a)] ranks
    alike. *)
Definition tie {A : Type} (key : A -> number) (x y : A) : bool :=
  le (key x) (key y) && le (key y) (key x).

(** [.filter(Boolean)] on an array whose entries are objects or [null] *)
Definition filter_Boolean {B : Type} (l : list (option B)) : list B :=
  omap (fun o => o) l.

(** [s.split(" ")[0]]: the text before the first space *)
Fixpoint first_field (s : string) : string :=
  match s with
  | EmptyString => EmptyString
  | String c s' =>
      if Ascii.eqb c " "%char then EmptyString else String c (first_field s')
  end.

End JS.

Declare Scope js_scope.
Delimit Scope js_scope with js.
Infix "+" := JS.add : js_scope.
Infix "-" := JS.sub : js_scope.
Infix "*" := JS.mul : js_scope.
Infix "/" := JS.div : js_scope.
Coercion JS.Fin : Q >-> JS.number.

(** ** The clock

    [Date.now()] gives the instants it returns during one call of
    [suggestOrder], in the order of the readings.  An instant used as a
    clock is the clock that stands still at that instant. *)

Record Clock : Type := { reading : nat -> Z }.

Definition still (now : Z) : Clock := {| reading := fun _ => now |}.

Coercion still : Z >-> Clock.

(** ** The runtime's local calendar *)

Class Calendar : Type := {
  (** [new Date(ms).toDateString()], e.g. [Mon Nov 02 2026] *)
  toDateString : Z -> string;
  (** [d.setDate(d.getDate() - k)]: the same local time, [k] days back *)
  setDateBack : Z -> Z -> Z
}.

(** ** Tasks *)

Record Task : Type := {
  id : string;
  title : string;
  description : string;
  priority : option string;
  deadline : option Z;
  estimatedTime : option Q;
  completed : bool;
  createdAt : Z;
  completedAt : option Z
}.

(** [t.priority === p] *)
Definition has_priority (p : string) (t : Task) : bool :=
  match priority t with
  | Some q => String.eqb q p
  | None => false
  end.

(** The character [U+0022], which the alert messages put around a title. *)
Definition dquote : string :=
  String (Ascii.Ascii false true false false false true false false) "".

(** ** AIEngine *)

Module AIEngine.

(** [{ high: 3, medium: 2, low: 1 }], read by key. *)
Definition priorityScore : gmap string JS.number :=
  {[ "high" := JS.Fin 3; "medium" := JS.Fin 2; "low" := JS.Fin 1 ]}.

(** The property names an object literal inherits from
    [Object.prototype].  Read by such a name, [priorityScore] gives a
    function (for [__proto__], the prototype object): a truthy value,
    which [|| 1] keeps and which the product [pa * 0.4] turns into
    NaN. *)
Definition Object_prototype : list string :=
  [ "constructor"; "hasOwnProperty"; "isPrototypeOf"; "propertyIsEnumerable";
    "toLocaleString"; "toString"; "valueOf"; "__proto__";
    "__defineGetter__"; "__defineSetter__"; "__lookupGetter__";
    "__lookupSetter__" ].

(** The priority of the task names an inherited property. *)
Definition inherited (a : Task) : bool :=
  match priority a with
  | Some p => existsb (String.eqb p) Object_prototype
  | None => false
  end.

(** [pa]: [priorityScore[a.priority] || 1], as the factor of [pa * 0.4] *)
Definition priorityWeight (a : Task) : JS.number :=
  if inherited a then JS.NaN
  else JS.or_else (priority a ≫= (priorityScore !!.)) 1%Q.

(** [deadlineA]: [a.deadline ? new Date(a.deadline).getTime() : Infinity] *)
Definition deadlineTime (a : Task) : JS.number :=
  match deadline a with
  | Some d => JS.Fin (inject_Z d)
  | None => JS.PosInf
  end.

(** [urgencyA], [now] being what [Date.now()] returns *)
Definition urgency (now : Z) (a : Task) : JS.number :=
  let deadlineA := deadlineTime a in
  if JS.is_Infinity deadlineA then JS.Fin 0
  else (1%Q / ((deadlineA - inject_Z now) / 86400000%Q + 1%Q))%js.

(** [a.estimatedTime ? 1 / a.estimatedTime : 0] *)
Definition efficiency (a : Task) : JS.number :=
  match estimatedTime a with
  | Some e => if JS.truthy e then (1%Q / e)%js else JS.Fin 0
  | None => JS.Fin 0
  end.

(** [scoreA], [now] being the instant read for its urgency *)
Definition score (now : Z) (a : Task) : JS.number :=
  (priorityWeight a * 0.4%Q + urgency now a * 0.4%Q + efficiency a * 0.2%Q)%js.

(** The reading of the clock for the urgency of [a]: [Date.now()] is
    called only when [deadlineA] is not [Infinity]; the urgency of a
    task without a deadline is [0] whatever the instant. *)
Definition Date_now (clock : Clock) (a : Task) (k : nat) : Z * nat :=
  (reading clock k, if JS.is_Infinity (deadlineTime a) then k else S k).

(** The comparator: [urgencyA] is computed before [urgencyB], each with
    a reading of its own; [k] counts the readings made so far. *)
Definition comparefn (clock : Clock) (a b : Task) (k : nat) : JS.number * nat :=
  let (nowA, k) := Date_now clock a k in
  let (nowB, k) := Date_now clock b k in
  ((score nowB b - score nowA a)%js, k).

Definition suggestOrder (clock : Clock) (tasks : list Task) : list Task :=
  (JS.sort (comparefn clock) tasks 0%nat).1.

(** The three counts of [getProductivityTip]. *)
Definition overdueCount (now : Z) (tasks : list Task) : nat :=
  length (List.filter
    (fun t => match deadline t with
              | Some d => (d <? now) && negb (completed t)
              | None => false
              end) tasks).

Definition highPendingCount (tasks : list Task) : nat :=
  length (List.filter
    (fun t => has_priority "high" t && negb (completed t)) tasks).

Definition completedTodayCount `{Calendar} (now : Z) (tasks : list Task) : nat :=
  length (List.filter
    (fun t => match completedAt t with
              | None => false
              | Some d => String.eqb (toDateString d) (toDateString now)
              end) tasks).

Definition pendingCount (tasks : list Task) : nat :=
  length (List.filter (fun t => negb (completed t)) tasks).

Definition overdueTip (overdue : nat) : string :=
  "⚠️ You have " ++ pretty overdue ++ " overdue task"
    ++ (if (1 <? overdue)%nat then "s" else "") ++ ". Tackle them first!".

Definition highPendingTip (highPending : nat) : string :=
  "🔥 " ++ pretty highPending
    ++ " high-priority tasks pending. Consider time-blocking your day.".

Definition completedTodayTip (completedToday : nat) : string :=
  "🎉 Great momentum! You've completed " ++ pretty completedToday
    ++ " tasks today.".

Definition allClearTip : string := "✨ All clear! Perfect time to plan ahead.".

Definition fallbackTip : string :=
  "💡 Try the 2-minute rule: if a task takes under 2 minutes, do it now.".

Definition getProductivityTip `{Calendar} (now : Z) (tasks : list Task) : string :=
  let overdue := overdueCount now tasks in
  let highPending := highPendingCount tasks in
  let completedToday := completedTodayCount now tasks in
  if (0 <? overdue)%nat then overdueTip overdue
  else if (2 <? highPending)%nat then highPendingTip highPending
  else if (3 <=? completedToday)%nat then completedTodayTip completedToday
  else if (pendingCount tasks =? 0)%nat then allClearTip
  else fallbackTip.

(** The [type] of an alert: one of the strings [overdue], [urgent], [soon]. *)
Inductive AlertType : Type := overdue | urgent | soon.

Record Alert : Type := {
  task : Task;
  type : AlertType;
  msg : string
}.

(** [diff]: the hours from [now] to a deadline *)
Definition hoursUntil (now d : Z) : Q := (inject_Z (d - now) / 3600000)%Q.

(** The callback of [.map] in [getNotifications]; [None] is its [null].
    It only sees tasks that passed the filter; on a task without a
    deadline [diff] would be NaN and every comparison false. *)
Definition notify (now : Z) (t : Task) : option Alert :=
  match deadline t with
  | None => None
  | Some d =>
      let diff := hoursUntil now d in
      if Qlt_le_dec diff 0 then
        Some {| task := t; type := overdue;
                msg := dquote ++ title t ++ dquote ++ " is overdue!" |}
      else if Qlt_le_dec diff 24 then
        Some {| task := t; type := urgent;
                msg := dquote ++ title t ++ dquote ++ " due in "
                         ++ pretty (JS.Math_round diff) ++ "h" |}
      else if Qlt_le_dec diff 72 then
        Some {| task := t; type := soon;
                msg := dquote ++ title t ++ dquote ++ " due in "
                         ++ pretty (JS.Math_round (diff / 24)) ++ "d" |}
      else None
  end.

Definition getNotifications (now : Z) (tasks : list Task) : list Alert :=
  JS.filter_Boolean
    (map (notify now)
       (List.filter
          (fun t => negb (completed t)
                    && match deadline t with Some _ => true | None => false end)
          tasks)).

End AIEngine.

(** ** Analytics *)

Module Trend.
Record t : Type := { day : string; completed : nat; added : nat }.
End Trend.

Module Bucket.
Record t : Type := { name : string; value : nat; color : string }.
End Bucket.

Module Analytics.
Record t : Type := {
  completionTrend : list Trend.t;
  byPriority : list Bucket.t;
  total : nat;
  completed : nat;
  rate : Z
}.
End Analytics.

(** [last7]: the date strings of the seven days that end today *)
Definition last7 `{Calendar} (now : Z) : list string :=
  map (fun i => toDateString (setDateBack now (6 - Z.of_nat i))) (seq 0 7).

Definition completedOn `{Calendar} (day : string) (tasks : list Task) : nat :=
  length (List.filter
    (fun t => match completedAt t with
              | Some c => String.eqb (toDateString c) day
              | None => false
              end) tasks).

Definition addedOn `{Calendar} (day : string) (tasks : list Task) : nat :=
  length (List.filter
    (fun t => String.eqb (toDateString (createdAt t)) day) tasks).

Definition countPriority (p : string) (tasks : list Task) : nat :=
  length (List.filter (has_priority p) tasks).

Definition getAnalytics `{Calendar} (now : Z) (tasks : list Task) : Analytics.t :=
  let completionTrend :=
    map (fun day => {| Trend.day := JS.first_field day;
                       Trend.completed := completedOn day tasks;
                       Trend.added := addedOn day tasks |}) (last7 now) in
  let byPriority :=
    [ {| Bucket.name := "High"; Bucket.value := countPriority "high" tasks;
         Bucket.color := "#ef4444" |};
      {| Bucket.name := "Medium"; Bucket.value := countPriority "medium" tasks;
         Bucket.color := "#f59e0b" |};
      {| Bucket.name := "Low"; Bucket.value := countPriority "low" tasks;
         Bucket.color := "#10b981" |} ] in
  let total := length tasks in
  let completed := length (List.filter (fun t => completed t) tasks) in
  let rate :=
    if (total =? 0)%nat then 0
    else JS.Math_round
           (JS.value (JS.integer (Z.of_nat completed) / JS.integer (Z.of_nat total)
                      * 100%Q)%js) in
  {| Analytics.completionTrend := completionTrend;
     Analytics.byPriority := byPriority;
     Analytics.total := total;
     Analytics.completed := completed;
     Analytics.rate := rate |}.

(** ** Call sites *)

(** [tasks.filter(t => !t.completed)] *)
Definition pending (tasks : list Task) : list Task :=
  List.filter (fun t => negb (completed t)) tasks.

(** [AISuggestionsPage]: the ranking is computed on the pending tasks. *)
Definition suggested (clock : Clock) (tasks : list Task) : list Task :=
  AIEngine.suggestOrder clock (pending tasks).


(** [TaskModal.handleSave] followed by [addTask]: the task made from
    the fields of the form.  [typedHours] is the number typed in the
    field for the estimate ([None] when it is left empty); the field
    carries [min=0], which the handler does not check:
    [estimatedTime: Number(estimatedTime) || 0]. *)
Definition addTask (now : Z) (title description priority : string)
    (deadline : option Z) (typedHours : option Q) : Task :=
  {| id := pretty now;
     title := title;
     description := description;
     priority := Some priority;
     deadline := deadline;
     estimatedTime :=
       Some (match typedHours with
             | Some h => if JS.truthy h then h else 0%Q
             | None => 0%Q
             end);
     completed := false;
     createdAt := now;
     completedAt := None |}.

(** The tasks the demo account is seeded with at instant [now]. *)
Definition designMockup (now : Z) : Task :=
  {| id := "t1"; title := "Design landing page mockup"; description := "";
     priority := Some "high"; deadline := Some (now + 86400000);
     estimatedTime := Some 4%Q; completed := false;
     createdAt := now; completedAt := None |}.

Definition writeProposal (now : Z) : Task :=
  {| id := "t2"; title := "Write project proposal"; description := "";
     priority := Some "high"; deadline := Some (now + 172800000);
     estimatedTime := Some 2%Q; completed := false;
     createdAt := now; completedAt := None |}.

Definition reviewPulls (now : Z) : Task :=
  {| id := "t3"; title := "Review pull requests"; description := "";
     priority := Some "medium"; deadline := None;
     estimatedTime := Some 1%Q; completed := true;
     createdAt := now; completedAt := Some now |}.

Definition updateDocs (now : Z) : Task :=
  {| id := "t4"; title := "Update documentation"; description := "";
     priority := Some "low"; deadline := None;
     estimatedTime := Some 3%Q; completed := false;
     createdAt := now; completedAt := None |}.

Definition standupNotes (now : Z) : Task :=
  {| id := "t5"; title := "Team standup notes"; description := "";
     priority := Some "low"; deadline := None;
     estimatedTime := Some 0.5%Q; completed := true;
     createdAt := now; completedAt := Some now |}.

Definition sampleTasks (now : Z) : list Task :=
  [ designMockup now; writeProposal now; reviewPulls now; updateDocs now;
    standupNotes now ].


(** ** The score as the specification words it

    The formula of the specification, evaluated with the arithmetic of
    the code: the two differ only in what they test. *)

Module Spec.

Definition priorityWeight (t : Task) : JS.number :=
  if has_priority "high" t then JS.Fin 3
  else if has_priority "medium" t then JS.Fin 2
  else JS.Fin 1.

(** (deadline - now) in days *)
Definition daysUntilDeadline (now d : Z) : JS.number :=
  ((inject_Z d - inject_Z now) / 86400000%Q)%js.

Definition urgency (now : Z) (t : Task) : JS.number :=
  match deadline t with
  | None => JS.Fin 0
  | Some d => (1%Q / (daysUntilDeadline now d + 1%Q))%js
  end.

(** [1 / estimatedTime] when [estimatedTime > 0], and [0] otherwise *)
Definition efficiency (t : Task) : JS.number :=
  match estimatedTime t with
  | Some e => if JS.lt (JS.Fin 0) e then (1%Q / e)%js else JS.Fin 0
  | None => JS.Fin 0
  end.

Definition score (now : Z) (t : Task) : JS.number :=
  (priorityWeight t * 0.4%Q + urgency now t * 0.4%Q + efficiency t * 0.2%Q)%js.

(** [round(completed/total × 100)], [0] when total = 0 *)
Definition rate (completed total : nat) : Z :=
  if (total =? 0)%nat then 0
  else JS.Math_round
         (inject_Z (Z.of_nat completed) / inject_Z (Z.of_nat total) * 100)%Q.

End Spec.

(** ** Calls on arrays held by reference

    [suggestOrder] copies its argument with a spread ([[...tasks]]) and
    sorts the copy in place.  The store below keeps arrays by reference,
    so that what a call leaves behind for the next one is explicit. *)

Module Store.

Abbreviation ref := nat (only parsing).
Abbreviation store := (list (list Task)) (only parsing).

Definition M (A : Type) : Type := store -> A * store.

#[export] Instance ret : MRet M := fun A a s => (a, s).

#[export] Instance bind : MBind M :=
  fun A B k m s => let (a, s') := m s in k a s'.

(** The elements of the array behind [r]. *)
Definition read (r : ref) : M (list Task) :=
  fun s => (default [] (s !! r), s).

(** Overwrite the array behind [r] (nothing happens for a dangling [r],
    which a program cannot hold). *)
Definition write (r : ref) (l : list Task) : M unit :=
  fun s => (tt, <[r := l]> s).

(** A new array. *)
Definition alloc (l : list Task) : M ref :=
  fun s => (length s, s ++ [l]).

(** [[...tasks]] *)
Definition spread (tasks : ref) : M ref :=
  l ← read tasks; alloc l.

(** [arr.sort(comparefn)]: sorts [arr] itself and returns it.  The
    comparator counts its readings of the clock from the first one of
    the call. *)
Definition sort (comparefn : Task -> Task -> nat -> JS.number * nat) (arr : ref)
    : M ref :=
  l ← read arr; write arr (JS.sort comparefn l 0%nat).1;; mret arr.

Definition suggestOrder (clock : Clock) (tasks : ref) : M ref :=
  copy ← spread tasks;
  sort (AIEngine.comparefn clock) copy.

End Store.

(** ** A calendar to run the engine with: UTC, proleptic Gregorian *)

Module UTC.

Definition msPerDay : Z := 86400000.

(** Year, month and day of the month of a day number (days since
    1970-01-01). *)
Definition civil (days : Z) : Z * Z * Z :=
  let z := days + 719468 in
  let era := z / 146097 in
  let doe := z - era * 146097 in
  let yoe := (doe - doe / 1460 + doe / 36524 - doe / 146096) / 365 in
  let doy := doe - (365 * yoe + yoe / 4 - yoe / 100) in
  let mp := (5 * doy + 2) / 153 in
  let d := doy - (153 * mp + 2) / 5 + 1 in
  let m := if mp <? 10 then mp + 3 else mp - 9 in
  let y := yoe + era * 400 + (if m <=? 2 then 1 else 0) in
  (y, m, d).

Definition weekdayName (days : Z) : string :=
  nth (Z.to_nat ((days + 4) mod 7))
    ["Sun"; "Mon"; "Tue"; "Wed"; "Thu"; "Fri"; "Sat"] "".

Definition monthName (m : Z) : string :=
  nth (Z.to_nat (m - 1))
    ["Jan"; "Feb"; "Mar"; "Apr"; "May"; "Jun";
     "Jul"; "Aug"; "Sep"; "Oct"; "Nov"; "Dec"] "".

Definition two_digits (n : Z) : string :=
  if n <? 10 then "0" ++ pretty n else pretty n.

Definition dateString (ms : Z) : string :=
  let days := ms / msPerDay in
  let '(y, m, d) := civil days in
  weekdayName days ++ " " ++ monthName m ++ " " ++ two_digits d ++ " " ++ pretty y.

#[export] Instance calendar : Calendar := {|
  toDateString := dateString;
  setDateBack := fun ms k => ms - k * msPerDay
|}.

End UTC.

(** ** The rest of the application

    What follows embeds the code around the engine: the storage object
    [DB], the handlers of [AuthPage], [TaskModal], [DashboardPage] and
    [App], and the figures the pages compute themselves. *)

(** *** [localStorage] and JSON

    [localStorage] maps keys to texts.  [JSON.stringify] and
    [JSON.parse] belong to the runtime: they are the interface [JSON],
    with what the code relies on for the values it stores (strings,
    finite numbers, booleans, [null], arrays and objects of those):
    parsing the text of a value gives the value back, the text of a
    value is never the empty string, and the text the code falls back
    on ([[]] for an array, [null] for the session) parses to the empty
    value. *)

Class JSON (A : Type) (fallback : string) (empty : A) : Type := {
  stringify : A -> string;
  parse : string -> A;
  parse_stringify : forall a, parse (stringify a) = a;
  stringify_truthy : forall a, stringify a <> "";
  parse_fallback : parse fallback = empty
}.

Module Storage.

(** [localStorage.getItem(k)]; [None] is its [null]. *)
Definition getItem (k : string) (ls : gmap string string) : option string :=
  ls !! k.

Definition setItem (k v : string) (ls : gmap string string) : gmap string string :=
  <[k := v]> ls.

Definition removeItem (k : string) (ls : gmap string string) : gmap string string :=
  delete k ls.

(** [item || fallback]: the fallback replaces [null] and the empty text. *)
Definition or_text (item : option string) (fallback : string) : string :=
  match item with
  | Some "" | None => fallback
  | Some s => s
  end.

End Storage.

Module User.
Record t : Type := {
  id : string;
  name : string;
  email : string;
  pass : string;
  createdAt : Z
}.
End User.

Module DB.
Section WithJSON.
Context `{!JSON (list User.t) "[]" [], !JSON (list Task) "[]" [],
          !JSON (option User.t) "null" None}.

Definition tasksKey (uid : string) : string := "stp_tasks_" ++ uid.

Definition getUsers (ls : gmap string string) : list User.t :=
  parse (Storage.or_text (Storage.getItem "stp_users" ls) "[]").

Definition saveUsers (u : list User.t) (ls : gmap string string) : gmap string string :=
  Storage.setItem "stp_users" (stringify u) ls.

Definition getTasks (uid : string) (ls : gmap string string) : list Task :=
  parse (Storage.or_text (Storage.getItem (tasksKey uid) ls) "[]").

Definition saveTasks (uid : string) (t : list Task) (ls : gmap string string)
    : gmap string string :=
  Storage.setItem (tasksKey uid) (stringify t) ls.

Definition getSession (ls : gmap string string) : option User.t :=
  parse (Storage.or_text (Storage.getItem "stp_session" ls) "null").

Definition saveSession (s : User.t) (ls : gmap string string) : gmap string string :=
  Storage.setItem "stp_session" (stringify (Some s)) ls.

Definition clearSession (ls : gmap string string) : gmap string string :=
  Storage.removeItem "stp_session" ls.

End WithJSON.
End DB.

(** *** AuthPage *)

Module AuthPage.

(** What [handleSubmit] ends in: an error message under the form, or a
    call of [onLogin] with the storage it has written. *)
Inductive Outcome : Type :=
  | Err (err : string)
  | LoggedIn (user : User.t) (ls : gmap string string).

Section WithJSON.
Context `{!JSON (list User.t) "[]" [], !JSON (list Task) "[]" [],
          !JSON (option User.t) "null" None}.

Definition handleSubmit (now : Z) (tab name email pass : string)
    (ls : gmap string string) : Outcome :=
  if String.eqb email "" || String.eqb pass "" then
    Err "Please fill in all fields."
  else
    let users := DB.getUsers ls in
    if String.eqb tab "register" then
      if String.eqb name "" then Err "Name is required."
      else
        match List.find (fun u => String.eqb (User.email u) email) users with
        | Some _ => Err "Email already registered."
        | None =>
            let user := {| User.id := pretty now; User.name := name;
                           User.email := email; User.pass := pass;
                           User.createdAt := now |} in
            let ls := DB.saveUsers (users ++ [user]) ls in
            let ls := DB.saveSession user ls in
            LoggedIn user ls
        end
    else
      match List.find (fun u => String.eqb (User.email u) email
                                && String.eqb (User.pass u) pass) users with
      | None => Err "Invalid email or password."
      | Some user => LoggedIn user (DB.saveSession user ls)
      end.

End WithJSON.
End AuthPage.

(** *** [String.prototype.trim]

    A string is its UTF-8 bytes.  [trim] removes, at both ends, the
    white space and line terminators of the language: U+0009 to U+000D,
    U+0020, U+00A0, U+1680, U+2000 to U+200A, U+2028, U+2029, U+202F,
    U+205F, U+3000 and U+FEFF. *)

Module JSString.

Definition byte (c : ascii) : N := N_of_ascii c.

(** A white-space character of one byte. *)
Definition ws1 (c : ascii) : bool :=
  ((9 <=? byte c) && (byte c <=? 13) || (byte c =? 32))%N.

(** A white-space character of two bytes: U+00A0. *)
Definition ws2 (c1 c2 : ascii) : bool :=
  ((byte c1 =? 194) && (byte c2 =? 160))%N.

(** A white-space character of three bytes. *)
Definition ws3 (c1 c2 c3 : ascii) : bool :=
  ((byte c1 =? 225) && (byte c2 =? 154) && (byte c3 =? 128)
   || (byte c1 =? 226) && (byte c2 =? 128)
        && ((128 <=? byte c3) && (byte c3 <=? 138)
            || (byte c3 =? 168) || (byte c3 =? 169) || (byte c3 =? 175))
   || (byte c1 =? 226) && (byte c2 =? 129) && (byte c3 =? 159)
   || (byte c1 =? 227) && (byte c2 =? 128) && (byte c3 =? 128)
   || (byte c1 =? 239) && (byte c2 =? 187) && (byte c3 =? 191))%N.

(** Drop white space from the front; [rev] says that the bytes of the
    text come last first. *)
Fixpoint strip (rev : bool) (s : list ascii) : list ascii :=
  match s with
  | c1 :: s1 =>
      if ws1 c1 then strip rev s1
      else match s1 with
           | c2 :: s2 =>
               if (if rev then ws2 c2 c1 else ws2 c1 c2) then strip rev s2
               else match s2 with
                    | c3 :: s3 =>
                        if (if rev then ws3 c3 c2 c1 else ws3 c1 c2 c3)
                        then strip rev s3 else s
                    | [] => s
                    end
           | [] => s
           end
  | [] => []
  end.

(** [clean rev s]: [s] does not begin with a white-space character, so
    that [strip rev] has nothing to drop. *)
Definition clean (rev : bool) (s : list ascii) : bool :=
  match s with
  | c1 :: s1 =>
      negb (ws1 c1)
      && match s1 with
         | c2 :: s2 =>
             negb (if rev then ws2 c2 c1 else ws2 c1 c2)
             && match s2 with
                | c3 :: _ => negb (if rev then ws3 c3 c2 c1 else ws3 c1 c2 c3)
                | [] => true
                end
         | [] => true
         end
  | [] => true
  end.

Definition trim (s : string) : string :=
  String.string_of_list_ascii
    (List.rev (strip true (List.rev (strip false (String.list_ascii_of_string s))))).

End JSString.

(** *** TaskModal *)

(** The object [handleSave] passes to [onSave]. *)
Module TaskData.
Record t : Type := {
  title : string;
  description : string;
  priority : string;
  deadline : option Z;
  estimatedTime : Q
}.
End TaskData.

Module TaskModal.

(** The state of the form.  [estimatedTime] is what the number field
    holds: [None] for the empty text. *)
Module Form.
Record t : Type := {
  title : string;
  desc : string;
  priority : string;
  deadline : option Z;
  estimatedTime : option Q
}.
End Form.

(** The initial state, for a new task ([None]) or the task edited:
    [task?.title || ""], [task?.priority || "medium"] and so on. *)
Definition init (task : option Task) : Form.t :=
  match task with
  | None =>
      {| Form.title := ""; Form.desc := ""; Form.priority := "medium";
         Form.deadline := None; Form.estimatedTime := None |}
  | Some t =>
      {| Form.title := title t;
         Form.desc := description t;
         Form.priority := match priority t with
                          | Some "" | None => "medium"
                          | Some p => p
                          end;
         Form.deadline := deadline t;
         Form.estimatedTime := match estimatedTime t with
                               | Some e => if JS.truthy e then Some e else None
                               | None => None
                               end |}
  end.

(** [Number(estimatedTime) || 0] *)
Definition hours (typed : option Q) : Q :=
  match typed with
  | Some h => if JS.truthy h then h else 0%Q
  | None => 0%Q
  end.

(** [None]: the handler returns without calling [onSave]. *)
Definition handleSave (f : Form.t) : option TaskData.t :=
  if String.eqb (JSString.trim (Form.title f)) "" then None
  else Some {| TaskData.title := JSString.trim (Form.title f);
               TaskData.description := Form.desc f;
               TaskData.priority := Form.priority f;
               TaskData.deadline := Form.deadline f;
               TaskData.estimatedTime := hours (Form.estimatedTime f) |}.

End TaskModal.

(** *** DashboardPage *)

Module Dashboard.
Section WithJSON.
Context `{!JSON (list User.t) "[]" [], !JSON (list Task) "[]" [],
          !JSON (option User.t) "null" None}.

(** [save]: the new list goes to the state and to the storage. *)
Definition save (userId : string) (l : list Task) (ls : gmap string string)
    : list Task * gmap string string :=
  (l, DB.saveTasks userId l ls).

(** [{ id: Date.now().toString(), ...data, completed: false,
      createdAt: new Date().toISOString() }] *)
Definition newTask (now : Z) (data : TaskData.t) : Task :=
  {| id := pretty now;
     title := TaskData.title data;
     description := TaskData.description data;
     priority := Some (TaskData.priority data);
     deadline := TaskData.deadline data;
     estimatedTime := Some (TaskData.estimatedTime data);
     completed := false;
     createdAt := now;
     completedAt := None |}.

Definition addTask (userId : string) (now : Z) (data : TaskData.t)
    (tasks : list Task) (ls : gmap string string) :=
  let t := newTask now data in
  save userId (tasks ++ [t]) ls.

(** [{ ...t, ...data }] *)
Definition merge (t : Task) (data : TaskData.t) : Task :=
  {| id := id t;
     title := TaskData.title data;
     description := TaskData.description data;
     priority := Some (TaskData.priority data);
     deadline := TaskData.deadline data;
     estimatedTime := Some (TaskData.estimatedTime data);
     completed := completed t;
     createdAt := createdAt t;
     completedAt := completedAt t |}.

(** [modal] is the task being edited. *)
Definition updateTask (userId : string) (modal : Task) (data : TaskData.t)
    (tasks : list Task) (ls : gmap string string) :=
  save userId
    (map (fun t => if String.eqb (id t) (id modal) then merge t data else t) tasks)
    ls.

Definition deleteTask (userId : string) (i : string)
    (tasks : list Task) (ls : gmap string string) :=
  save userId (List.filter (fun t => negb (String.eqb (id t) i)) tasks) ls.

(** [{ ...t, completed: !t.completed,
      completedAt: !t.completed ? new Date().toISOString() : null }] *)
Definition toggled (now : Z) (t : Task) : Task :=
  {| id := id t; title := title t; description := description t;
     priority := priority t; deadline := deadline t;
     estimatedTime := estimatedTime t;
     completed := negb (completed t);
     createdAt := createdAt t;
     completedAt := if negb (completed t) then Some now else None |}.

Definition toggleTask (userId : string) (now : Z) (i : string)
    (tasks : list Task) (ls : gmap string string) :=
  save userId
    (map (fun t => if String.eqb (id t) i then toggled now t else t) tasks) ls.

(** [filter] is the state of the three buttons: [all], [active], [done]. *)
Definition filtered (filter : string) (tasks : list Task) : list Task :=
  List.filter
    (fun t =>
       if String.eqb filter "active" then negb (completed t)
       else if String.eqb filter "done" then completed t
       else true) tasks.

Definition sorted (clock : Clock) (filter : string) (tasks : list Task)
    : list Task :=
  AIEngine.suggestOrder clock
    (List.filter (fun t => negb (completed t)) (filtered filter tasks))
  ++ List.filter (fun t => completed t) (filtered filter tasks).

Definition completedCount (tasks : list Task) : nat :=
  length (List.filter (fun t => completed t) tasks).

Definition pct (tasks : list Task) : Z :=
  if (length tasks =? 0)%nat then 0
  else JS.Math_round
         (JS.value (JS.integer (Z.of_nat (completedCount tasks))
                    / JS.integer (Z.of_nat (length tasks)) * 100%Q)%js).

(** The figure of the card [In Progress]. *)
Definition inProgress (tasks : list Task) : nat :=
  length (List.filter (fun t => negb (completed t)) tasks).


End WithJSON.
End Dashboard.

(** *** AnalyticsPage and AISuggestionsPage *)

Module AnalyticsPage.

(** [t.estimatedTime > 0]; an absent estimate compares false. *)
Definition estimated (t : Task) : bool :=
  match estimatedTime t with
  | Some e => JS.lt (JS.Fin 0) (JS.Fin e)
  | None => false
  end.

(** [b.estimatedTime] as an operand of [+]: NaN when absent. *)
Definition estimate (b : Task) : JS.number :=
  match estimatedTime b with
  | Some e => JS.Fin e
  | None => JS.NaN
  end.

Definition avgTime (tasks : list Task) : JS.number :=
  let counted := List.filter estimated tasks in
  (fold_left (fun a b => a + estimate b) counted (JS.Fin 0)
   / JS.integer (if (length counted =? 0)%nat then 1
                 else Z.of_nat (length counted)))%js.

End AnalyticsPage.

Module AISuggestionsPage.

(** The flag [overdue] of an entry of the ranking. *)
Definition itemOverdue (now : Z) (t : Task) : bool :=
  match deadline t with
  | Some d => d <? now
  | None => false
  end.

(** The entry with the badge [START HERE]: the one with [i === 0]. *)
Definition startHere (clock : Clock) (tasks : list Task) : option Task :=
  suggested clock tasks !! 0%nat.

End AISuggestionsPage.

(** *** App *)

Module App.

Record state : Type := {
  user : option User.t;
  page : string;
  tasks : list Task;
  darkMode : bool
}.

Definition initial : state :=
  {| user := None; page := "dashboard"; tasks := []; darkMode := true |}.

Definition demo (now : Z) : User.t :=
  {| User.id := "demo"; User.name := "Demo User"; User.email := "demo@task.com";
     User.pass := "demo123"; User.createdAt := now |}.

Section WithJSON.
Context `{!JSON (list User.t) "[]" [], !JSON (list Task) "[]" [],
          !JSON (option User.t) "null" None}.

Definition hasDemo (users : list User.t) : bool :=
  match List.find (fun u => String.eqb (User.email u) "demo@task.com") users with
  | Some _ => true
  | None => false
  end.

(** The effect run when [App] is mounted. *)
Definition mount (now : Z) (st : state) (ls : gmap string string)
    : state * gmap string string :=
  match DB.getSession ls with
  | Some session =>
      let st := {| user := Some session; page := page st;
                   tasks := DB.getTasks (User.id session) ls;
                   darkMode := darkMode st |} in
      let users := DB.getUsers ls in
      if hasDemo users then (st, ls)
      else
        let ls := DB.saveUsers (users ++ [demo now]) ls in
        (st, DB.saveTasks "demo" (sampleTasks now) ls)
  | None =>
      let users := DB.getUsers ls in
      if hasDemo users then (st, ls)
      else (st, DB.saveUsers (users ++ [demo now]) ls)
  end.

Definition handleLogin (u : User.t) (st : state) (ls : gmap string string) : state :=
  {| user := Some u; page := page st; tasks := DB.getTasks (User.id u) ls;
     darkMode := darkMode st |}.

Definition handleLogout (st : state) (ls : gmap string string)
    : state * gmap string string :=
  ({| user := None; page := "dashboard"; tasks := []; darkMode := darkMode st |},
   DB.clearSession ls).

(** [AuthPage.handleSubmit] with [onLogin = handleLogin]; an error
    leaves state and storage as they are. *)
Definition submit (now : Z) (tab name email pass : string)
    (st : state) (ls : gmap string string) : state * gmap string string :=
  match AuthPage.handleSubmit now tab name email pass ls with
  | AuthPage.Err _ => (st, ls)
  | AuthPage.LoggedIn u ls' => (handleLogin u st ls', ls')
  end.

End WithJSON.
End App.

(** *** A JSON to run the handlers with

    The texts are not those of the real [JSON.stringify]; they satisfy
    the interface, which is all the application relies on: a value is
    written as the digits of its code as a countable value. *)

Module Digits.

Fixpoint digits (p : positive) : string :=
  match p with
  | xH => "."
  | xO p => String "0" (digits p)
  | xI p => String "1" (digits p)
  end.

Fixpoint undigits (s : string) : option positive :=
  match s with
  | String c s' =>
      if Ascii.eqb c "."%char then
        (if String.eqb s' "" then Some xH else None)
      else if Ascii.eqb c "0"%char then xO <$> undigits s'
      else if Ascii.eqb c "1"%char then xI <$> undigits s'
      else None
  | EmptyString => None
  end.

(** A text that no value is written as. *)
Definition free (s : string) : bool :=
  match s with
  | String c _ =>
      negb (Ascii.eqb c "."%char || Ascii.eqb c "0"%char || Ascii.eqb c "1"%char)
  | EmptyString => true
  end.

Lemma undigits_digits (p : positive) : undigits (digits p) = Some p.
Proof. induction p as [p IH|p IH|]; simpl; by rewrite ?IH. Qed.

Lemma digits_not_free (p : positive) (s : string) :
  free s = true -> String.eqb (digits p) s = false.
Proof.
  intros Hs. apply String.eqb_neq. intros <-. by destruct p.
Qed.

#[export] Instance Q_eq_dec : EqDecision Q.
Proof. solve_decision. Defined.

#[export] Instance Q_countable : Countable Q.
Proof.
  refine (inj_countable' (fun q => (Qnum q, Qden q))
            (fun p => Qmake (fst p) (snd p)) _).
  by intros [].
Defined.

#[export] Instance Task_eq_dec : EqDecision Task.
Proof. solve_decision. Defined.

#[export] Instance Task_countable : Countable Task.
Proof.
  refine (inj_countable'
    (fun t => (id t, title t, description t, priority t, deadline t,
               estimatedTime t, completed t, createdAt t, completedAt t))
    (fun p => let '(a, b, c, d, e, f, g, h, i) := p in
              {| id := a; title := b; description := c; priority := d;
                 deadline := e; estimatedTime := f; completed := g;
                 createdAt := h; completedAt := i |}) _).
  by intros [].
Defined.

#[export] Instance User_eq_dec : EqDecision User.t.
Proof. solve_decision. Defined.

#[export] Instance User_countable : Countable User.t.
Proof.
  refine (inj_countable'
    (fun u => (User.id u, User.name u, User.email u, User.pass u, User.createdAt u))
    (fun p => let '(a, b, c, d, e) := p in
              {| User.id := a; User.name := b; User.email := c; User.pass := d;
                 User.createdAt := e |}) _).
  by intros [].
Defined.

Definition json {A : Type} `{Countable A} (fallback : string) (empty : A)
    (Hfree : free fallback = true) : JSON A fallback empty.
Proof.
  refine {| stringify := fun a => digits (encode a);
            parse := fun s => if String.eqb s fallback then empty
                              else default empty (undigits s ≫= decode) |}.
  - intros a. rewrite (digits_not_free _ _ Hfree), undigits_digits. simpl.
    by rewrite decode_encode.
  - intros a. by destruct (encode a).
  - by rewrite String.eqb_refl.
Defined.

#[export] Instance users : JSON (list User.t) "[]" [] := json "[]" [] eq_refl.
#[export] Instance tasks : JSON (list Task) "[]" [] := json "[]" [] eq_refl.
#[export] Instance session : JSON (option User.t) "null" None :=
  json "null" None eq_refl.

End Digits.

(** *** Properties of task lists *)

(** [completedAt] is present exactly when [completed] is set. *)
Definition stamped (t : Task) : bool :=
  match completedAt t with
  | Some _ => completed t
  | None => negb (completed t)
  end.

(** [{ ...t, completedAt: now }] *)
Definition restamped (now : Z) (t : Task) : Task :=
  {| id := id t; title := title t; description := description t;
     priority := priority t; deadline := deadline t;
     estimatedTime := estimatedTime t; completed := completed t;
     createdAt := createdAt t; completedAt := Some now |}.

(** A property of the content of an optional field is decidable when the
    property is. *)
#[export] Instance option_content_dec {A : Type} (P : A -> Prop)
    `{!forall x, Decision (P x)} (o : option A) :
  Decision (exists x, o = Some x /\ P x).
Proof.
  refine (match o with
          | Some x => cast_if (decide (P x))
          | None => right _
          end).
  - by exists x.
  - by intros (y & [= <-] & ?).
  - by intros (y & ? & _).
Defined.

(** *** Notions the proofs about rounding use *)

Module Rounding.

(** A mantissa [m] with a location [l] stands for a real between [m] and
    [m + 1]: [m] itself when the location is exact. *)
Definition inexact (l : location) : Z :=
  match l with loc_Exact => 0 | _ => 1 end.

(** Whether a bit that was set has been shifted out. *)
Definition lost (r : shr_record) : Z := if shr_r r || shr_s r then 1 else 0.

(** [+0], a positive finite value, or [Infinity]. *)
Definition positive_or_zero (x : JS.number) : bool :=
  match x with
  | S754_zero false | S754_infinity false | S754_finite false _ _ => true
  | _ => false
  end.

(** A finite value other than zero; a value that is not infinite. *)
Definition finite (x : JS.number) : bool :=
  match x with S754_finite _ _ _ => true | _ => false end.

Definition bounded (x : JS.number) : bool :=
  match x with S754_zero _ | S754_finite _ _ _ => true | _ => false end.

End Rounding.

(** * Properties *)

(** ** Rounding, and the order on numbers *)

Module NumberFacts.
Import JS Rounding.

Lemma digits2_bounds (m : positive) :
  2 ^ (Zpos (digits2_pos m) - 1) <= Zpos m < 2 ^ Zpos (digits2_pos m).
Proof.
  induction m as [m IH|m IH|]; cbn [digits2_pos].
  - rewrite Pos2Z.inj_succ.
    replace (Z.succ (Zpos (digits2_pos m)) - 1) with (Z.succ (Zpos (digits2_pos m) - 1)) by lia.
    rewrite !Z.pow_succ_r by lia. lia.
  - rewrite Pos2Z.inj_succ.
    replace (Z.succ (Zpos (digits2_pos m)) - 1) with (Z.succ (Zpos (digits2_pos m) - 1)) by lia.
    rewrite !Z.pow_succ_r by lia. lia.
  - simpl. lia.
Qed.

Lemma shr_1_m (r : shr_record) :
  0 <= shr_m r -> shr_m (shr_1 r) = shr_m r / 2.
Proof.
  destruct r as [m r s]. cbn [shr_m]. intros Hm.
  destruct m as [|[p|p|]|p]; simpl; try lia; try reflexivity.
  - apply Z.div_unique with 1; lia.
  - apply Z.div_unique with 0; lia.
Qed.

Lemma iter_pos_iter {A : Type} (f : A -> A) (p : positive) (x : A) :
  SpecFloat.iter_pos f p x = Pos.iter f x p.
Proof.
  revert x. induction p as [p IH|p IH|]; intros x; cbn [SpecFloat.iter_pos Pos.iter].
  - by rewrite !IH, <- !Pos.iter_swap.
  - by rewrite !IH.
  - done.
Qed.

Lemma iter_shr_m (p : positive) (r : shr_record) :
  0 <= shr_m r ->
  shr_m (SpecFloat.iter_pos shr_1 p r) = shr_m r / 2 ^ Zpos p.
Proof.
  intros Hr. rewrite iter_pos_iter.
  induction p as [|p IH] using Pos.peano_ind.
  - cbn [Pos.iter]. by rewrite shr_1_m.
  - rewrite Pos.iter_succ, shr_1_m.
    + rewrite IH, Z.div_div by lia. f_equal.
      rewrite Pos2Z.inj_succ, Z.pow_succ_r by lia. lia.
    + rewrite IH. apply Z.div_pos; lia.
Qed.

Lemma shr_m_nonneg (r : shr_record) (e n : Z) :
  0 <= shr_m r -> 0 <= shr_m (shr r e n).1.
Proof.
  intros Hr. unfold shr. destruct n as [|p|p]; cbn [fst]; [done| |done].
  rewrite iter_shr_m by done. apply Z.div_pos; lia.
Qed.

Lemma shr_m_record (m : Z) (l : location) : shr_m (shr_record_of_loc m l) = m.
Proof. by destruct l as [|[]]. Qed.

Lemma fexp_emin (k : Z) : emin prec emax <= fexp prec emax k.
Proof. unfold fexp. lia. Qed.

(** The exponent [shr_fexp] returns is never below [emin]. *)
Lemma shr_fexp_exponent (m e : Z) (l : location) :
  emin prec emax <= (shr_fexp prec emax m e l).2.
Proof.
  unfold shr_fexp, shr.
  pose proof (fexp_emin (Zdigits2 m + e)).
  destruct (fexp prec emax (Zdigits2 m + e) - e) as [|p|p] eqn:E; cbn [snd]; lia.
Qed.

Lemma shr_fexp_nonneg (m e : Z) (l : location) :
  0 <= m -> 0 <= shr_m (shr_fexp prec emax m e l).1.
Proof.
  intros Hm. unfold shr_fexp. apply shr_m_nonneg. by rewrite shr_m_record.
Qed.

(** A positive mantissa at an exponent in range is not shifted away. *)
Lemma shr_fexp_pos (m e : Z) (l : location) :
  0 < m -> emin prec emax <= e -> 0 < shr_m (shr_fexp prec emax m e l).1.
Proof.
  intros Hm He. unfold shr_fexp, shr.
  destruct m as [|m|m]; [lia| |lia].
  pose proof (digits2_bounds m) as [Hlo Hhi].
  cbn [Zdigits2].
  destruct (fexp prec emax (Zpos (digits2_pos m) + e) - e) as [|p|p] eqn:E;
    cbn [fst]; rewrite ?shr_m_record; [lia| |lia].
  rewrite iter_shr_m by (rewrite shr_m_record; lia). rewrite shr_m_record.
  assert (Hp : Zpos p <= Zpos (digits2_pos m) - 1).
  { unfold fexp, emin, prec, emax in *. lia. }
  apply Z.div_str_pos. split; [lia|].
  etransitivity; [|exact Hlo]. apply Z.pow_le_mono_r; lia.
Qed.

Lemma round_nearest_even_ge (m : Z) (l : location) : m <= round_nearest_even m l.
Proof. destruct l as [|[]]; cbn; try lia. destruct (Z.even m); lia. Qed.

(** The three shapes of a rounded value: never NaN, the sign kept. *)
Lemma binary_round_aux_shape (s : bool) (m e : Z) (l : location) :
  0 <= m ->
  binary_round_aux prec emax s m e l = S754_zero s \/
  binary_round_aux prec emax s m e l = S754_infinity s \/
  exists m' e', binary_round_aux prec emax s m e l = S754_finite s m' e'
                /\ emin prec emax <= e'.
Proof.
  intros Hm. unfold binary_round_aux.
  pose proof (shr_fexp_nonneg m e l Hm) as H1.
  destruct (shr_fexp prec emax m e l) as [mrs' e'] eqn:E1. cbn [fst] in H1.
  set (m2 := round_nearest_even (shr_m mrs') (loc_of_shr_record mrs')).
  assert (H2 : 0 <= m2) by (pose proof (round_nearest_even_ge (shr_m mrs') (loc_of_shr_record mrs')); unfold m2; lia).
  pose proof (shr_fexp_nonneg m2 e' loc_Exact H2) as H3.
  pose proof (shr_fexp_exponent m2 e' loc_Exact) as H4.
  destruct (shr_fexp prec emax m2 e' loc_Exact) as [mrs'' e''] eqn:E2.
  cbn [fst snd] in H3, H4.
  destruct (shr_m mrs'') as [|m'|m']; [by left| |lia].
  right. destruct (e'' <=? emax - prec); [right; eauto|by left].
Qed.

(** ... and not zero when the mantissa is positive and the exponent in
    range. *)
Lemma binary_round_aux_pos (s : bool) (m e : Z) (l : location) :
  0 < m -> emin prec emax <= e ->
  binary_round_aux prec emax s m e l = S754_infinity s \/
  exists m' e', binary_round_aux prec emax s m e l = S754_finite s m' e'
                /\ emin prec emax <= e'.
Proof.
  intros Hm He. unfold binary_round_aux.
  pose proof (shr_fexp_pos m e l Hm He) as H1.
  pose proof (shr_fexp_exponent m e l) as H1'.
  destruct (shr_fexp prec emax m e l) as [mrs' e'] eqn:E1. cbn [fst snd] in H1, H1'.
  set (m2 := round_nearest_even (shr_m mrs') (loc_of_shr_record mrs')).
  assert (H2 : 0 < m2) by (pose proof (round_nearest_even_ge (shr_m mrs') (loc_of_shr_record mrs')); unfold m2; lia).
  pose proof (shr_fexp_pos m2 e' loc_Exact H2 H1') as H3.
  pose proof (shr_fexp_exponent m2 e' loc_Exact) as H4.
  destruct (shr_fexp prec emax m2 e' loc_Exact) as [mrs'' e''] eqn:E2.
  cbn [fst snd] in H3, H4.
  destruct (shr_m mrs'') as [|m'|m']; [lia| |lia].
  destruct (e'' <=? emax - prec); [right; eauto|by left].
Qed.


Lemma binary_round_shape (s : bool) (m : positive) (e : Z) :
  binary_round prec emax s m e = S754_zero s \/
  binary_round prec emax s m e = S754_infinity s \/
  exists m' e', binary_round prec emax s m e = S754_finite s m' e'
                /\ emin prec emax <= e'.
Proof.
  unfold binary_round. destruct (shl_align _ _ _) as [mz ez].
  by apply binary_round_aux_shape.
Qed.

Lemma binary_round_pos (s : bool) (m : positive) (e : Z) :
  emin prec emax <= e ->
  binary_round prec emax s m e = S754_infinity s \/
  exists m' e', binary_round prec emax s m e = S754_finite s m' e'
                /\ emin prec emax <= e'.
Proof.
  intros He. unfold binary_round.
  pose proof (fexp_emin (Zpos (digits2_pos m) + e)) as Hf.
  assert (Hz : emin prec emax
               <= (shl_align m e (fexp prec emax (Zpos (digits2_pos m) + e))).2).
  { unfold shl_align. destruct (_ - e) as [|d|d] eqn:E; cbn [snd]; lia. }
  destruct (shl_align _ _ _) as [mz ez]. cbn [snd] in Hz.
  by apply binary_round_aux_pos.
Qed.

Lemma iter_xO (m d : positive) : Zpos (Pos.iter xO m d) = Zpos m * 2 ^ Zpos d.
Proof.
  induction d as [|d IH] using Pos.peano_ind.
  - cbn [Pos.iter]. lia.
  - rewrite Pos.iter_succ, Pos2Z.inj_xO, IH, Pos2Z.inj_succ, Z.pow_succ_r by lia. lia.
Qed.

(** Bringing a mantissa down to a smaller exponent. *)
Lemma shl_align_le (m : positive) (e E : Z) :
  E <= e -> Zpos (shl_align m e E).1 = Zpos m * 2 ^ (e - E).
Proof.
  intros HE. unfold shl_align.
  destruct (E - e) as [|d|d] eqn:Hd; cbn [fst].
  - replace (e - E) with 0 by lia. lia.
  - lia.
  - rewrite iter_xO. f_equal. f_equal. lia.
Qed.

Lemma two_pow_pos (e : Z) : (0 < 2 ^ e)%Q.
Proof. by apply Qpower_0_lt. Qed.

Lemma cond_Zopp_mul (s : bool) (a b : Z) : cond_Zopp s (a * b) = cond_Zopp s a * b.
Proof. destruct s; cbn; lia. Qed.

(** The value of a mantissa brought down to the exponent [E]. *)
Lemma value_aligned (s : bool) (m : positive) (e E : Z) :
  E <= e ->
  (inject_Z (cond_Zopp s (Zpos (shl_align m e E).1)) * 2 ^ E
   == value (S754_finite s m e))%Q.
Proof.
  intros HE. rewrite (shl_align_le m e E HE), cond_Zopp_mul, inject_Z_mult.
  rewrite Zpower_Qpower by lia. cbn [value].
  change (inject_Z 2) with 2%Q.
  rewrite <- Qmult_assoc, <- Qpower_plus by done.
  by replace (e - E + E) with e by lia.
Qed.

Lemma value_finite_sign (s : bool) (m : positive) (e : Z) :
  if s then (value (S754_finite s m e) < 0)%Q
  else (0 < value (S754_finite s m e))%Q.
Proof.
  pose proof (two_pow_pos e) as Hp. cbn [value].
  destruct s; cbn [cond_Zopp].
  - assert (H : (inject_Z (- Zpos m) < 0)%Q)
      by (change 0%Q with (inject_Z 0); rewrite <- Zlt_Qlt; lia).
    pose proof (Qmult_lt_compat_r _ _ _ Hp H). lra.
  - assert (H : (0 < inject_Z (Zpos m))%Q)
      by (change 0%Q with (inject_Z 0); rewrite <- Zlt_Qlt; lia).
    pose proof (Qmult_lt_compat_r _ _ _ Hp H). lra.
Qed.

Lemma lt_zero_finite (s : bool) (m : positive) (e : Z) :
  lt (Fin 0) (S754_finite s m e) = negb s.
Proof.
  pose proof (value_finite_sign s m e) as H.
  unfold lt. cbn [Fin Qnum isNaN side negb andb orb Z.eqb Z.ltb Z.compare].
  change (value (S754_zero false)) with 0%Q.
  destruct s; cbn [negb].
  - apply negb_false_iff, Qle_bool_iff. lra.
  - apply negb_true_iff, not_true_is_false. rewrite Qle_bool_iff. lra.
Qed.

Lemma le_spec (x y : number) :
  le x y = true <->
  isNaN x = false /\ isNaN y = false /\
  (side x < side y \/ side x = side y /\ (value x <= value y)%Q).
Proof.
  unfold le. rewrite !andb_true_iff, orb_true_iff, andb_true_iff, !negb_true_iff.
  rewrite Z.ltb_lt, Z.eqb_eq, Qle_bool_iff. tauto.
Qed.

Lemma le_trans (x y z : number) :
  le x y = true -> le y z = true -> le x z = true.
Proof.
  rewrite !le_spec. intros (Hx & Hy & H1) (_ & Hz & H2).
  split; [done|]. split; [done|].
  destruct H1 as [H1|[H1 H1']], H2 as [H2|[H2 H2']]; [left; lia..|].
  right. split; [lia|lra].
Qed.

Lemma le_total (x y : number) :
  isNaN x = false -> isNaN y = false -> le x y = false -> le y x = true.
Proof.
  intros Hx Hy H. apply le_spec. split; [done|]. split; [done|].
  apply not_true_iff_false in H. rewrite le_spec in H.
  destruct (Z.lt_trichotomy (side x) (side y)) as [Hs|[Hs|Hs]]; [|right|by left].
  - exfalso. apply H. auto.
  - split; [done|]. destruct (Qlt_le_dec (value x) (value y)) as [Hl|Hl]; [|done].
    exfalso. apply H. split; [done|]. split; [done|]. right. split; [done|lra].
Qed.

Lemma le_refl (x : number) : isNaN x = false -> le x x = true.
Proof. intros Hx. apply le_spec. split; [done|]. split; [done|]. right. split; [done|lra]. Qed.

(** The sign of a difference is the order of its operands: for no two
    values in range is the difference zero or NaN unless they are equal,
    or both the same infinity. *)
Lemma lt_zero_sub (x y : number) :
  isNaN x = false -> isNaN y = false -> in_range x -> in_range y ->
  lt (Fin 0) (sub y x) = negb (le y x).
Proof.
  intros Hx Hy Rx Ry.
  destruct x as [sx|sx| |sx mx ex], y as [sy|sy| |sy my ey]; try done;
    try (destruct sx, sy; reflexivity); try (destruct sx; reflexivity);
    try (destruct sy; reflexivity).
  - (* zero - finite *)
    unfold sub. cbn [SFsub]. rewrite lt_zero_finite, negb_involutive.
    pose proof (value_finite_sign sx mx ex) as H.
    symmetry. destruct sx.
    + apply negb_true_iff, not_true_is_false. rewrite le_spec. cbn [side].
      change (value (S754_zero sy)) with 0%Q.
      intros (_ & _ & [?|[_ ?]]); [lia|lra].
    + apply negb_false_iff, le_spec. cbn [side isNaN].
      change (value (S754_zero sy)) with 0%Q.
      split; [done|]. split; [done|]. right. split; [done|lra].
  - (* finite - finite *)
    cbn [in_range] in Rx, Ry.
    unfold sub. cbn [SFsub]. cbv zeta.
    set (ez := Z.min ey ex).
    pose proof (value_aligned sx mx ex ez ltac:(lia)) as Vx.
    pose proof (value_aligned sy my ey ez ltac:(lia)) as Vy.
    set (ax := cond_Zopp sx (Zpos (shl_align mx ex ez).1)) in *.
    set (ay := cond_Zopp sy (Zpos (shl_align my ey ez).1)) in *.
    pose proof (two_pow_pos ez) as Hp.
    assert (Hd : (inject_Z (ay - ax) * 2 ^ ez
                  == value (S754_finite sy my ey) - value (S754_finite sx mx ex))%Q).
    { rewrite <- Vx, <- Vy. unfold Z.sub. rewrite inject_Z_plus, inject_Z_opp. ring. }
    set (vx := value (S754_finite sx mx ex)) in *.
    set (vy := value (S754_finite sy my ey)) in *.
    assert (Hle : le (S754_finite sy my ey) (S754_finite sx mx ex) = true
                  <-> (vy <= vx)%Q).
    { rewrite le_spec. cbn [isNaN side]. fold vx vy. split.
      - intros (_ & _ & [?|[_ ?]]); [lia|done].
      - intros H. split; [done|]. split; [done|]. by right. }
    unfold binary_normalize.
    destruct (ay - ax) as [|d|d] eqn:Ed.
    + assert (Hv : (vy <= vx)%Q).
      { change (inject_Z 0) with 0%Q in Hd. lra. }
      apply Hle in Hv. rewrite Hv. reflexivity.
    + assert (Hv : ~ (vy <= vx)%Q).
      { assert (H0 : (0 < inject_Z (Zpos d))%Q)
          by (change 0%Q with (inject_Z 0); rewrite <- Zlt_Qlt; lia).
        pose proof (Qmult_lt_0_compat _ _ H0 Hp). lra. }
      rewrite <- Hle in Hv. apply not_true_is_false in Hv. rewrite Hv.
      destruct (binary_round_pos false d ez ltac:(lia)) as [->|(m' & e' & -> & _)];
        [reflexivity|apply lt_zero_finite].
    + assert (Hv : (vy <= vx)%Q).
      { assert (H0 : (inject_Z (Zneg d) < 0)%Q)
          by (change 0%Q with (inject_Z 0); rewrite <- Zlt_Qlt; lia).
        assert (H1 : (inject_Z (Zneg d) * 2 ^ ez < 0 * 2 ^ ez)%Q)
          by by apply Qmult_lt_compat_r.
        lra. }
      apply Hle in Hv. rewrite Hv.
      destruct (binary_round_pos true d ez ltac:(lia)) as [->|(m' & e' & -> & _)];
        [reflexivity|apply lt_zero_finite].
Qed.

Lemma mul_in_range (x y : number) : in_range (mul x y).
Proof.
  destruct x as [sx|sx| |sx mx ex], y as [sy|sy| |sy my ey]; try exact I.
  unfold mul. cbn [SFmul].
  destruct (binary_round_aux_shape (xorb sx sy) (Zpos (mx * my)) (ex + ey) loc_Exact
              ltac:(lia)) as [->|[->|(m' & e' & -> & ?)]]; try exact I. done.
Qed.

Lemma add_in_range (x y : number) : in_range x -> in_range y -> in_range (add x y).
Proof.
  intros Rx Ry.
  destruct x as [sx|sx| |sx mx ex], y as [sy|sy| |sy my ey]; try done;
    try (destruct sx, sy; done).
  unfold add. cbn [SFadd]. cbv zeta. unfold binary_normalize.
  destruct (_ + _) as [|d|d]; [exact I| |].
  - destruct (binary_round_shape false d (Z.min ex ey)) as [->|[->|(m' & e' & -> & ?)]];
      try exact I. done.
  - destruct (binary_round_shape true d (Z.min ex ey)) as [->|[->|(m' & e' & -> & ?)]];
      try exact I. done.
Qed.

Lemma div_core_nonneg (m1 e1 m2 e2 : Z) :
  0 < m1 -> 0 < m2 -> 0 <= (SFdiv_core_binary prec emax m1 e1 m2 e2).1.1.
Proof.
  intros H1 H2. unfold SFdiv_core_binary. cbv zeta.
  set (s := e1 - e2 - _).
  set (m' := match s with Zpos _ => Z.shiftl m1 s | Z0 => m1 | Zneg _ => 0 end).
  assert (Hm' : 0 <= m').
  { unfold m'. destruct s; [lia| |lia]. apply Z.shiftl_nonneg. lia. }
  pose proof (Z.div_pos m' m2 Hm' H2) as Hq. unfold Z.div in Hq.
  by destruct (Z.div_eucl m' m2) as [q r].
Qed.

(** A quotient of finite values is never NaN, and has the sign of its
    operands. *)
Lemma div_finite_shape (sx sy : bool) (mx my : positive) (ex ey : Z) :
  let r := div (S754_finite sx mx ex) (S754_finite sy my ey) in
  r = S754_zero (xorb sx sy) \/ r = S754_infinity (xorb sx sy) \/
  exists m e, r = S754_finite (xorb sx sy) m e /\ emin prec emax <= e.
Proof.
  cbv zeta. unfold div. cbn [SFdiv].
  pose proof (div_core_nonneg (Zpos mx) ex (Zpos my) ey ltac:(lia) ltac:(lia)) as Hq.
  destruct (SFdiv_core_binary prec emax (Zpos mx) ex (Zpos my) ey) as [[mz ez] lz].
  cbn [fst] in Hq. by apply binary_round_aux_shape.
Qed.

(** The value nearest to a rational is never NaN, has its sign, and is
    in range. *)
Lemma Fin_shape (q : Q) :
  let s := (Qnum q <? 0)%Z in
  Fin q = S754_zero s \/ Fin q = S754_infinity s \/
  exists m e, Fin q = S754_finite s m e /\ emin prec emax <= e.
Proof.
  cbv zeta. unfold Fin. destruct (Qnum q) as [|n|n]; [by left| |].
  - destruct (div_finite_shape false false n (Qden q) 0 0) as [H|[H|H]];
      cbn [xorb] in H; change (Zpos n <? 0) with false; auto.
  - destruct (div_finite_shape true false n (Qden q) 0 0) as [H|[H|H]];
      cbn [xorb] in H; change (Zneg n <? 0) with true; auto.
Qed.


Lemma Fin_in_range (q : Q) : in_range (Fin q).
Proof. by destruct (Fin_shape q) as [->|[->|(m & e & -> & ?)]]. Qed.

Lemma Fin_zero (q : Q) : (q == 0)%Q -> Fin q = S754_zero false.
Proof.
  intros Hq. unfold Fin.
  assert (Qnum q = 0) as -> by (unfold Qeq in Hq; simpl in Hq; lia). done.
Qed.

(** On a rational that is not negative, being truthy is being greater
    than zero. *)
Lemma truthy_nonneg (q : Q) :
  (0 <= q)%Q -> truthy (Fin q) = lt (Fin 0) (Fin q).
Proof.
  intros Hq.
  assert (Hs : (Qnum q <? 0)%Z = false)
    by (apply Z.ltb_ge; unfold Qle in Hq; simpl in Hq; lia).
  pose proof (Fin_shape q) as H. cbv zeta in H. rewrite Hs in H.
  destruct H as [->|[->|(m & e & -> & _)]]; [reflexivity..|].
  change (Fin 0) with (S754_zero false). unfold lt.
  pose proof (value_finite_sign false m e) as Hv. cbn beta iota in Hv.
  cbn [truthy isNaN side negb andb orb Z.eqb Z.ltb Z.compare].
  change (value (S754_zero false)) with 0%Q.
  symmetry. apply negb_true_iff, not_true_is_false. rewrite Qle_bool_iff. lra.
Qed.

(** *** An upper bound kept by rounding

    A mantissa [m] with a location [l] stands for a real between [m] and
    [m + 1], equal to [m] when the location is exact.  If that real is
    at most [K * 2^n], [n] being the number of bits rounding shifts out,
    the rounded mantissa is at most [K]: rounding does not cross a
    multiple of its own unit. *)

Lemma lost_record (m : Z) (l : location) :
  lost (shr_record_of_loc m l) = inexact l.
Proof. by destruct l as [|[]]. Qed.

Lemma shr_1_upper (r : shr_record) (K : Z) :
  0 <= shr_m r -> shr_m r + lost r <= K * 2 ->
  shr_m (shr_1 r) + lost (shr_1 r) <= K.
Proof.
  destruct r as [m r s]. unfold lost. cbn [shr_m shr_r shr_s]. intros Hm.
  destruct m as [|[p|p|]|p]; [| | | |lia]; cbn [shr_1 shr_m shr_r shr_s];
    destruct r, s; cbn [orb]; lia.
Qed.

Lemma iter_shr_upper (p : positive) (r : shr_record) (K : Z) :
  0 <= shr_m r -> shr_m r + lost r <= K * 2 ^ Zpos p ->
  shr_m (SpecFloat.iter_pos shr_1 p r) + lost (SpecFloat.iter_pos shr_1 p r) <= K.
Proof.
  rewrite iter_pos_iter. revert K.
  induction p as [|p IH] using Pos.peano_ind; intros K Hm Hle.
  - cbn [Pos.iter]. apply shr_1_upper; [done|]. by rewrite Z.pow_1_r in Hle.
  - rewrite Pos.iter_succ. apply shr_1_upper.
    + rewrite <- iter_pos_iter, iter_shr_m by done. apply Z.div_pos; lia.
    + apply IH; [done|].
      rewrite Pos2Z.inj_succ, Z.pow_succ_r in Hle by lia. lia.
Qed.

Lemma round_nearest_even_upper (r : shr_record) :
  round_nearest_even (shr_m r) (loc_of_shr_record r) <= shr_m r + lost r.
Proof.
  destruct r as [m [] []]; unfold lost; cbn; try lia. destruct (Z.even m); lia.
Qed.

Lemma round_aux_upper (s : bool) (m e : Z) (l : location) (K : Z) :
  let n := Z.max 0 (fexp prec emax (Zdigits2 m + e) - e) in
  0 <= m -> m + inexact l <= K * 2 ^ n ->
  binary_round_aux prec emax s m e l = S754_zero s \/
  exists (M : positive) (E : Z),
    e + n <= E /\ Zpos M * 2 ^ (E - (e + n)) <= K /\
    binary_round_aux prec emax s m e l
    = if E <=? emax - prec then S754_finite s M E else S754_infinity s.
Proof.
  cbv zeta. intros Hm Hle. unfold binary_round_aux.
  assert (H1 : let r := (shr_fexp prec emax m e l).1 in
               0 <= shr_m r /\ shr_m r + lost r <= K /\
               (shr_fexp prec emax m e l).2
               = e + Z.max 0 (fexp prec emax (Zdigits2 m + e) - e)).
  { cbv zeta. unfold shr_fexp, shr.
    destruct (fexp prec emax (Zdigits2 m + e) - e) as [|p|p] eqn:En;
      cbn [fst snd]; rewrite ?lost_record, ?shr_m_record.
    - rewrite Z.pow_0_r in Hle. lia.
    - replace (Z.max 0 (Zpos p)) with (Zpos p) in * by lia.
      split; [|split; [|done]].
      + rewrite iter_shr_m by (by rewrite shr_m_record). apply Z.div_pos; [|lia].
        by rewrite shr_m_record.
      + apply iter_shr_upper; by rewrite ?lost_record, ?shr_m_record.
    - replace (Z.max 0 (Zneg p)) with 0 in * by lia.
      rewrite Z.pow_0_r in Hle. lia. }
  destruct (shr_fexp prec emax m e l) as [mrs' e'] eqn:E1.
  cbv zeta in H1. cbn [fst snd] in H1. destruct H1 as (Hr0 & Hr & ->).
  set (n := Z.max 0 (fexp prec emax (Zdigits2 m + e) - e)) in *.
  set (m2 := round_nearest_even (shr_m mrs') (loc_of_shr_record mrs')).
  assert (H2 : 0 <= m2 <= K).
  { pose proof (round_nearest_even_ge (shr_m mrs') (loc_of_shr_record mrs')).
    pose proof (round_nearest_even_upper mrs'). unfold m2. lia. }
  unfold shr_fexp, shr.
  destruct (fexp prec emax (Zdigits2 m2 + (e + n)) - (e + n)) as [|p|p] eqn:En2;
    cbn [fst snd]; rewrite ?shr_m_record.
  - destruct m2 as [|M|M]; [by left| |lia]. right. exists M, (e + n).
    split; [lia|]. split; [|done]. rewrite Z.sub_diag, Z.pow_0_r. lia.
  - rewrite iter_shr_m by (rewrite shr_m_record; lia). rewrite shr_m_record.
    assert (Hq : 0 <= m2 / 2 ^ Zpos p) by (apply Z.div_pos; lia).
    destruct (m2 / 2 ^ Zpos p) as [|M|M] eqn:Eq; [by left| |lia].
    right. exists M, (e + n + Zpos p). split; [lia|]. split; [|done].
    replace (e + n + Zpos p - (e + n)) with (Zpos p) by lia.
    rewrite <- Eq. pose proof (Z.mul_div_le m2 (2 ^ Zpos p) ltac:(lia)). lia.
  - destruct m2 as [|M|M]; [by left| |lia]. right. exists M, (e + n).
    split; [lia|]. split; [|done]. rewrite Z.sub_diag, Z.pow_0_r. lia.
Qed.

Lemma digits_le_pow (m : positive) (k : Z) :
  0 <= k -> Zpos m <= 2 ^ k -> Zpos (digits2_pos m) <= k + 1.
Proof.
  intros Hk Hm. pose proof (digits2_bounds m) as [Hlo _].
  destruct (Z_le_gt_dec (Zpos (digits2_pos m)) (k + 1)) as [|Hgt]; [done|].
  exfalso. assert (2 ^ (k + 1) <= 2 ^ (Zpos (digits2_pos m) - 1))
    by (apply Z.pow_le_mono_r; lia).
  rewrite Z.pow_add_r, Z.pow_1_r in H by lia. lia.
Qed.

(** *** Values that are not negative *)

Lemma positive_or_zero_le (x : number) :
  positive_or_zero x = true -> le (Fin 0) x = true.
Proof.
  destruct x as [[]|[]| |[] m e]; try done; intros _.
  pose proof (value_finite_sign false m e) as Hv. cbn beta iota in Hv.
  apply le_spec. change (Fin 0) with (S754_zero false). cbn [isNaN side].
  change (value (S754_zero false)) with 0%Q.
  split; [done|]. split; [done|]. right. split; [done|lra].
Qed.

Lemma add_positive_or_zero (x y : number) :
  positive_or_zero x = true -> positive_or_zero y = true ->
  positive_or_zero (add x y) = true.
Proof.
  destruct x as [[]|[]| |[] mx ex], y as [[]|[]| |[] my ey]; try done.
  intros _ _. unfold add. cbn [SFadd cond_Zopp]. cbv zeta.
  unfold binary_normalize.
  destruct (_ + _) as [|d|d] eqn:Ed; [done| |lia].
  by destruct (binary_round_shape false d (Z.min ex ey))
    as [->|[->|(m' & e' & -> & _)]].
Qed.

Lemma div_positive_or_zero (x : number) (n : positive) :
  positive_or_zero x = true ->
  positive_or_zero (div x (integer (Zpos n))) = true.
Proof.
  destruct x as [[]|[]| |[] mx ex]; try done. intros _. cbn [integer].
  by destruct (div_finite_shape false false mx n ex 0)
    as [->|[->|(m' & e' & -> & _)]].
Qed.

(** A rational whose nearest value is greater than zero is positive. *)
Lemma Fin_positive (q : Q) :
  lt (Fin 0) (Fin q) = true ->
  (0 < q)%Q /\ positive_or_zero (Fin q) = true.
Proof.
  intros Hlt. pose proof (Fin_shape q) as H. cbv zeta in H.
  assert (Hq : 0 < Qnum q).
  { destruct (Qnum q) as [|n|n] eqn:E; [|lia|]; exfalso.
    - unfold Fin in Hlt. by rewrite E in Hlt.
    - change (Zneg n <? 0) with true in H.
      destruct H as [H|[H|(m & e & H & _)]]; rewrite H in Hlt; try done.
      by rewrite lt_zero_finite in Hlt. }
  split; [unfold Qlt; simpl; lia|].
  destruct (Z.ltb_spec (Qnum q) 0) as [Hn|Hn]; [lia|].
  by destruct H as [->|[->|(m & e & -> & _)]].
Qed.

(** *** Where NaN comes from

    A sum is NaN only for two infinities, a product only for a zero and
    an infinity, a quotient only for two zeros or two infinities. *)




Lemma mul_zero (s : bool) (y : number) :
  finite y = true -> bounded (mul (S754_zero s) y) = true.
Proof. by destruct y. Qed.




End NumberFacts.
(** ** The sort *)

Module JSFacts.
Import JS.

Section SortFacts.
Context {A S : Type} (comparefn : A -> A -> S -> number * S).

Lemma insert_perm (x : A) (l : list A) (s : S) :
  (insert comparefn x l s).1 ≡ₚ x :: l.
Proof.
  revert s. induction l as [|y l IH]; intros s; cbn [insert]; [done|].
  destruct (comparefn x y s) as [v s1].
  destruct (after v); [|done].
  specialize (IH s1). destruct (insert comparefn x l s1) as [l' s2].
  cbn [fst] in *. rewrite IH. apply Permutation_swap.
Qed.

Lemma sort_perm (l : list A) (s : S) : (sort comparefn l s).1 ≡ₚ l.
Proof.
  revert s. induction l as [|x l IH]; intros s; cbn [sort]; [done|].
  specialize (IH s). destruct (sort comparefn l s) as [l' s1]. cbn [fst] in IH.
  by rewrite insert_perm, IH.
Qed.

Lemma insert_front (x : A) (l : list A) (s : S) :
  Forall (fun y => forall s', after (comparefn x y s').1 = false) l ->
  (insert comparefn x l s).1 = x :: l.
Proof.
  destruct 1 as [|y l Hy _]; cbn [insert]; [done|].
  specialize (Hy s). destruct (comparefn x y s) as [v s1]. cbn [fst] in Hy.
  by rewrite Hy.
Qed.

Lemma sort_of_sorted (l : list A) (s : S) :
  StronglySorted (fun x y => forall s', after (comparefn x y s').1 = false) l ->
  (sort comparefn l s).1 = l.
Proof.
  induction 1 as [|x l Hl IH Hx]; cbn [sort]; [done|].
  destruct (sort comparefn l s) as [l' s1]. cbn [fst] in IH. subst l'.
  by apply insert_front.
Qed.

(** A comparator [(a, b) => key(b) - key(a)] that reads no state, on
    elements whose keys are numbers. *)
Context (key : A -> number).
Hypothesis comparefn_key :
  forall x y s, (comparefn x y s).1 = sub (key y) (key x).
Hypothesis key_in_range : forall x, in_range (key x).

Lemma after_key (x y : A) (s : S) :
  isNaN (key x) = false -> isNaN (key y) = false ->
  after (comparefn x y s).1 = negb (le (key y) (key x)).
Proof.
  intros Hx Hy. rewrite comparefn_key. unfold after.
  by apply NumberFacts.lt_zero_sub.
Qed.

Lemma insert_sorted (x : A) (l : list A) (s : S) :
  isNaN (key x) = false -> Forall (fun y => isNaN (key y) = false) l ->
  StronglySorted (fun a b => le (key b) (key a) = true) l ->
  StronglySorted (fun a b => le (key b) (key a) = true) (insert comparefn x l s).1.
Proof.
  intros Hx Hl Hs. revert s.
  induction Hs as [|y l Hsl IH Hy]; intros s; cbn [insert].
  - repeat constructor.
  - apply Forall_cons in Hl as [Hny Hl].
    pose proof (after_key x y s Hx Hny) as Ha.
    destruct (comparefn x y s) as [v s1]. cbn [fst] in Ha. rewrite Ha.
    destruct (le (key y) (key x)) eqn:E; cbn [negb].
    + constructor; [by constructor|].
      constructor; [done|].
      eapply Forall_impl; [exact Hy|]. intros z Hz. cbn beta in *.
      by eapply NumberFacts.le_trans.
    + specialize (IH Hl s1).
      pose proof (insert_perm x l s1) as Hp.
      destruct (insert comparefn x l s1) as [l' s2]. cbn [fst] in *.
      constructor; [done|]. rewrite Hp.
      constructor; [by apply NumberFacts.le_total|done].
Qed.

Lemma sort_sorted (l : list A) (s : S) :
  Forall (fun y => isNaN (key y) = false) l ->
  StronglySorted (fun a b => le (key b) (key a) = true) (sort comparefn l s).1.
Proof.
  intros Hl. revert s. induction Hl as [|x l Hx Hl IH]; intros s; cbn [sort].
  - constructor.
  - specialize (IH s). pose proof (sort_perm l s) as Hp.
    destruct (sort comparefn l s) as [l' s1]. cbn [fst] in *.
    apply insert_sorted; [done| |done]. by rewrite Hp.
Qed.

End SortFacts.

Lemma StronglySorted_weaken {A : Type} (R R' : relation A) (l : list A) :
  (forall x y, x ∈ l -> y ∈ l -> R x y -> R' x y) ->
  StronglySorted R l -> StronglySorted R' l.
Proof.
  intros HR Hs. induction Hs as [|x l Hl IH Hx]; constructor.
  - apply IH. intros y z Hy Hz. apply HR; by right.
  - rewrite Forall_forall in *. intros y Hy.
    apply HR; [by left|by right|by apply Hx].
Qed.


End JSFacts.

(** ** The sort is the stable sort *)

Module StableSort.
Import JS.

Section Stable.
Context {A S : Type} (comparefn : A -> A -> S -> number * S) (key : A -> number).
Hypothesis comparefn_key :
  forall x y s, (comparefn x y s).1 = sub (key y) (key x).
Hypothesis key_in_range : forall x, in_range (key x).

Lemma tie_refl (x : A) : isNaN (key x) = false -> tie key x x = true.
Proof. intros Hx. unfold tie. by rewrite NumberFacts.le_refl. Qed.

Lemma tie_numeric (z x : A) : tie key z x = true -> isNaN (key x) = false.
Proof.
  unfold tie. intros [H _]%andb_true_iff. by apply NumberFacts.le_spec in H as (_ & ? & _).
Qed.

Lemma after_no_tie (x y z : A) (s : S) :
  isNaN (key y) = false ->
  after (comparefn x y s).1 = true ->
  tie key z x = true -> tie key z y = false.
Proof.
  intros Hy Ha Hzx.
  pose proof (tie_numeric z x Hzx) as Hx.
  rewrite (JSFacts.after_key comparefn key comparefn_key key_in_range) in Ha by done.
  apply negb_true_iff in Ha.
  unfold tie in *. apply andb_true_iff in Hzx as [Hzx Hxz].
  apply andb_false_iff. right.
  destruct (le (key y) (key z)) eqn:Hyz; [|done].
  by rewrite (NumberFacts.le_trans _ _ _ Hyz Hzx) in Ha.
Qed.

Lemma insert_filter_tie (z x : A) (l : list A) (s : S) :
  Forall (fun y => isNaN (key y) = false) l ->
  List.filter (tie key z) (insert comparefn x l s).1
  = List.filter (tie key z) (x :: l).
Proof.
  intros Hl. revert s. induction Hl as [|y l Hy Hl IH]; intros s; [done|].
  cbn [insert].
  pose proof (after_no_tie x y z s Hy) as Hno.
  destruct (comparefn x y s) as [v s1]. cbn [fst] in Hno.
  destruct (after v) eqn:E; [|done].
  specialize (IH s1). destruct (insert comparefn x l s1) as [l' s2].
  cbn [fst List.filter] in *. rewrite IH.
  destruct (tie key z x) eqn:Hx; [|done].
  by rewrite (Hno eq_refl eq_refl).
Qed.

(** Elements that rank alike stay in their input order. *)
Lemma sort_stable (z : A) (l : list A) (s : S) :
  Forall (fun y => isNaN (key y) = false) l ->
  List.filter (tie key z) (sort comparefn l s).1 = List.filter (tie key z) l.
Proof.
  intros Hl. revert s. induction Hl as [|x l Hx Hl IH]; intros s; [done|].
  cbn [sort]. specialize (IH s). pose proof (JSFacts.sort_perm comparefn l s) as Hp.
  destruct (sort comparefn l s) as [l' s1]. cbn [fst] in *.
  rewrite insert_filter_tie by by rewrite Hp.
  cbn [List.filter]. by rewrite IH.
Qed.

Lemma sorted_stable_unique (l1 l2 : list A) :
  Forall (fun y => isNaN (key y) = false) l1 ->
  Forall (fun y => isNaN (key y) = false) l2 ->
  StronglySorted (fun a b => le (key b) (key a) = true) l1 ->
  StronglySorted (fun a b => le (key b) (key a) = true) l2 ->
  (forall z, List.filter (tie key z) l1 = List.filter (tie key z) l2) ->
  l1 = l2.
Proof.
  intros N1 N2 H1. revert l2 N1 N2.
  induction H1 as [|x l1 Hl1 IH Hx]; intros l2 N1 N2 H2 Heq.
  - destruct l2 as [|y l2]; [done|].
    apply Forall_cons in N2 as [Ny _].
    specialize (Heq y). cbn [List.filter] in Heq. by rewrite tie_refl in Heq.
  - apply Forall_cons in N1 as [Nx N1].
    destruct H2 as [|y l2 Hl2 Hy].
    { specialize (Heq x). cbn [List.filter] in Heq. by rewrite tie_refl in Heq. }
    apply Forall_cons in N2 as [Ny N2].
    assert (Hyx : le (key x) (key y) = true).
    { pose proof (Heq x) as E. cbn [List.filter] in E. rewrite tie_refl in E by done.
      assert (Hin : In x (List.filter (tie key x) (y :: l2)))
        by (cbn [List.filter]; rewrite <- E; by left).
      apply filter_In in Hin as [[<- | Hin] _]; [by apply NumberFacts.le_refl|].
      rewrite Forall_forall in Hy. apply Hy. by apply list_elem_of_In. }
    assert (Hxy : le (key y) (key x) = true).
    { pose proof (Heq y) as E. cbn [List.filter] in E. rewrite tie_refl in E by done.
      assert (Hin : In y (List.filter (tie key y) (x :: l1)))
        by (cbn [List.filter]; rewrite E; by left).
      apply filter_In in Hin as [[<- | Hin] _]; [by apply NumberFacts.le_refl|].
      rewrite Forall_forall in Hx. apply Hx. by apply list_elem_of_In. }
    assert (x = y) as <-.
    { pose proof (Heq x) as E. cbn [List.filter] in E.
      rewrite tie_refl in E by done. unfold tie in E at 2. rewrite Hyx, Hxy in E.
      simpl in E. congruence. }
    f_equal. apply IH; [done..|]. intros z.
    specialize (Heq z). cbn [List.filter] in Heq.
    destruct (tie key z x); congruence.
Qed.

(** Whatever algorithm an engine runs, a result that is ordered by the
    comparator and keeps ties in input order is the one of [sort]. *)
Lemma stable_sort_unique (l l' : list A) (s : S) :
  Forall (fun y => isNaN (key y) = false) l ->
  l' ≡ₚ l ->
  StronglySorted (fun a b => le (key b) (key a) = true) l' ->
  (forall z, List.filter (tie key z) l' = List.filter (tie key z) l) ->
  l' = (sort comparefn l s).1.
Proof.
  intros Hn Hp Hs Hst.
  apply sorted_stable_unique; [by rewrite Hp|by rewrite JSFacts.sort_perm| done | |].
  - by apply (JSFacts.sort_sorted comparefn key comparefn_key key_in_range).
  - intros z. by rewrite sort_stable.
Qed.

End Stable.
End StableSort.

(** ** The ranking *)

Module RankingFacts.
Import JS AIEngine.

Lemma priorityScore_lookup (p : string) :
  priorityScore !! p =
    if String.eqb p "high" then Some (Fin 3)
    else if String.eqb p "medium" then Some (Fin 2)
    else if String.eqb p "low" then Some (Fin 1)
    else None.
Proof.
  unfold priorityScore.
  rewrite !lookup_insert, lookup_singleton.
  repeat case_decide; subst; simpl; try done;
    repeat match goal with
    | |- context [String.eqb ?a ?b] =>
        destruct (String.eqb_spec a b); try done
    end.
Qed.

(** On a priority that names no inherited property the weight is the
    one of the specification. *)
Lemma priorityWeight_cases (a : Task) :
  inherited a = false ->
  priorityWeight a =
    if has_priority "high" a then Fin 3
    else if has_priority "medium" a then Fin 2
    else Fin 1.
Proof.
  unfold priorityWeight, has_priority. intros ->.
  destruct (priority a) as [p|]; simpl; [|done].
  rewrite priorityScore_lookup.
  destruct (String.eqb p "high"); [done|].
  destruct (String.eqb p "medium"); [done|].
  by destruct (String.eqb p "low").
Qed.


Lemma score_in_range (now : Z) (a : Task) : in_range (score now a).
Proof.
  unfold score.
  repeat first [apply NumberFacts.add_in_range | apply NumberFacts.mul_in_range].
Qed.

(** *** Scores that are numbers *)





(** While the clock stands still, the comparator is
    [(a, b) => score(b) - score(a)] and reads no state. *)
Lemma comparefn_still (now : Z) (a b : Task) (k : nat) :
  (comparefn now a b k).1 = (score now b - score now a)%js.
Proof. reflexivity. Qed.

Lemma suggestOrder_perm (clock : Clock) (tasks : list Task) :
  suggestOrder clock tasks ≡ₚ tasks.
Proof. apply JSFacts.sort_perm. Qed.

Lemma suggestOrder_sorted (now : Z) (tasks : list Task) :
  Forall (fun t => isNaN (score now t) = false) tasks ->
  StronglySorted (fun a b => le (score now b) (score now a) = true)
    (suggestOrder now tasks).
Proof.
  apply (JSFacts.sort_sorted (comparefn now) (score now)
           (comparefn_still now) (score_in_range now)).
Qed.

(** The ranking keeps tasks of equal score in their input order, and is
    the only ordering of its input by score that does. *)
Lemma suggestOrder_stable (now : Z) (z : Task) (tasks : list Task) :
  Forall (fun t => isNaN (score now t) = false) tasks ->
  List.filter (tie (score now) z) (suggestOrder now tasks)
  = List.filter (tie (score now) z) tasks.
Proof.
  apply (StableSort.sort_stable (comparefn now) (score now)
           (comparefn_still now) (score_in_range now)).
Qed.

Lemma suggestOrder_unique (now : Z) (tasks out : list Task) :
  Forall (fun t => isNaN (score now t) = false) tasks ->
  out ≡ₚ tasks ->
  StronglySorted
    (fun a b => le (score now b) (score now a) = true) out ->
  (forall z, List.filter (tie (score now) z) out
             = List.filter (tie (score now) z) tasks) ->
  out = suggestOrder now tasks.
Proof.
  apply (StableSort.stable_sort_unique (comparefn now) (score now)
           (comparefn_still now) (score_in_range now)).
Qed.

Lemma suggestOrder_idem (now : Z) (tasks : list Task) :
  Forall (fun t => isNaN (score now t) = false) tasks ->
  suggestOrder now (suggestOrder now tasks) = suggestOrder now tasks.
Proof.
  intros Hn. apply JSFacts.sort_of_sorted.
  eapply JSFacts.StronglySorted_weaken; [|by apply suggestOrder_sorted].
  intros x y Hx Hy Hxy k. cbn beta in Hxy.
  rewrite Forall_forall in Hn.
  rewrite (JSFacts.after_key (comparefn now) (score now)
             (comparefn_still now) (score_in_range now)).
  - by rewrite Hxy.
  - apply Hn. by rewrite <- (suggestOrder_perm now tasks).
  - apply Hn. by rewrite <- (suggestOrder_perm now tasks).
Qed.

Lemma elem_of_pending (t : Task) (tasks : list Task) :
  t ∈ pending tasks <-> t ∈ tasks /\ completed t = false.
Proof.
  unfold pending. rewrite !list_elem_of_In, filter_In.
  by rewrite negb_true_iff.
Qed.

Lemma Forall_pending (P : Task -> Prop) (tasks : list Task) :
  Forall P tasks -> Forall P (pending tasks).
Proof.
  rewrite !Forall_forall. intros H t [Ht _]%elem_of_pending. by apply H.
Qed.



End RankingFacts.

(** ** Two calls in a row *)

Module StoreFacts.
Import Store.

Lemma suggestOrder_run (clock : Clock) (s : store) (tasks : ref) (l : list Task) :
  s !! tasks = Some l ->
  suggestOrder clock tasks s = (length s, s ++ [AIEngine.suggestOrder clock l]).
Proof.
  intros Hl.
  unfold suggestOrder, spread, sort, mbind, bind, read, alloc, write, mret, ret.
  rewrite Hl. simpl.
  rewrite (list_lookup_middle s [] l (length s) eq_refl). simpl.
  f_equal.
  rewrite <- (Nat.add_0_r (length s)) at 1.
  by rewrite insert_app_r.
Qed.

(** C6: two calls of [suggestOrder] on the same array, [now] fixed, the
    second made in the store the first one left.  The array passed is
    the same after each call, the two results are arrays of their own,
    and they hold the same tasks in the same order. *)
Theorem suggestOrder_twice (now : Z) (s : store) (tasks : ref) (l : list Task) :
  s !! tasks = Some l ->
  let (r1, s1) := suggestOrder now tasks s in
  let (r2, s2) := suggestOrder now tasks s1 in
  s1 !! tasks = Some l /\ s2 !! tasks = Some l /\
  r1 <> tasks /\ r2 <> tasks /\ r1 <> r2 /\
  exists out : list Task,
    s1 !! r1 = Some out /\ s2 !! r1 = Some out /\ s2 !! r2 = Some out.
Proof.
  intros Hl.
  assert (Hlt : (tasks < length s)%nat) by by eapply lookup_lt_Some.
  rewrite (suggestOrder_run now s tasks l Hl).
  assert (Hl1 : (s ++ [AIEngine.suggestOrder now l]) !! tasks = Some l)
    by by rewrite lookup_app_l.
  rewrite (suggestOrder_run now _ tasks l Hl1).
  rewrite length_app. simpl.
  split; [done|].
  split; [rewrite lookup_app_l; [done|rewrite length_app; simpl; lia]|].
  split; [lia|]. split; [lia|]. split; [lia|].
  exists (AIEngine.suggestOrder now l).
  split; [by apply list_lookup_middle|].
  split.
  - rewrite lookup_app_l; [|rewrite length_app; simpl; lia].
    by apply list_lookup_middle.
  - apply list_lookup_middle. rewrite length_app. simpl. lia.
Qed.

Lemma suggestOrder_twice_witness :
  let s : store := [sampleTasks 0] in
  s !! 0%nat = Some (sampleTasks 0) /\
  let (r1, s1) := suggestOrder 0 0%nat s in
  let (r2, s2) := suggestOrder 0 0%nat s1 in
  s1 !! 0%nat = Some (sampleTasks 0) /\ s2 !! 0%nat = Some (sampleTasks 0) /\
  r1 <> 0%nat /\ r2 <> 0%nat /\ r1 <> r2 /\
  exists out : list Task,
    s1 !! r1 = Some out /\ s2 !! r1 = Some out /\ s2 !! r2 = Some out.
Proof.
  split; [reflexivity|].
  apply (suggestOrder_twice 0 [sampleTasks 0] 0%nat (sampleTasks 0)).
  reflexivity.
Defined.

End StoreFacts.

(** ** The score *)

Module ScoreFacts.
Import JS AIEngine.

Lemma urgency_spec (now : Z) (t : Task) :
  is_Infinity (deadlineTime t) = false \/ deadline t = None ->
  urgency now t = Spec.urgency now t.
Proof.
  unfold urgency, Spec.urgency, Spec.daysUntilDeadline, deadlineTime.
  destruct (deadline t) as [d|]; [|done].
  by intros [->|?].
Qed.

Lemma efficiency_zero_or_missing (t : Task) :
  estimatedTime t = None \/ (exists e, estimatedTime t = Some e /\ e == 0) ->
  efficiency t = Fin 0.
Proof.
  unfold efficiency. intros [-> | (e & -> & He)]; [done|].
  by rewrite (NumberFacts.Fin_zero e He).
Qed.

Lemma efficiency_spec (t : Task) :
  (forall e, estimatedTime t = Some e -> (0 <= e)%Q) ->
  efficiency t = Spec.efficiency t.
Proof.
  intros Hpos. unfold efficiency, Spec.efficiency.
  destruct (estimatedTime t) as [e|]; [|done].
  by rewrite (NumberFacts.truthy_nonneg e (Hpos e eq_refl)).
Qed.

(** The score of the code is the formula of the specification on every
    task whose priority names no inherited property, whose deadline,
    if any, is a finite number, and whose estimate is absent or not
    negative. *)
Lemma score_spec (now : Z) (t : Task) :
  inherited t = false ->
  is_Infinity (deadlineTime t) = false \/ deadline t = None ->
  (forall e, estimatedTime t = Some e -> (0 <= e)%Q) ->
  score now t = Spec.score now t.
Proof.
  intros Hi Hd Hpos. unfold score, Spec.score.
  rewrite (RankingFacts.priorityWeight_cases t Hi), (urgency_spec now t Hd).
  by rewrite (efficiency_spec t Hpos).
Qed.

(** C2, at a task saved with [-4] typed as its estimate: the code adds
    [1 / -4 * 0.2] to the score, where the formula of the specification
    adds nothing, so the task is scored below the formula. *)
Theorem score_negative_estimate :
  let t := addTask 0 "Write project proposal" "" "high" None (Some (-4)%Q) in
  estimatedTime t = Some (-4)%Q /\
  efficiency t = Fin (1 / -4) /\
  Spec.efficiency t = Fin 0 /\
  score 0 t <> Spec.score 0 t /\
  lt (score 0 t) (Spec.score 0 t) = true.
Proof.
  repeat split; try (vm_compute; reflexivity).
  intros H. by vm_compute in H.
Qed.

(** C5, at a task saved with [-2] typed as its estimate: the efficiency
    term is [1 / -2], not [0], and it lowers the score of the task below
    that of the same task saved with no estimate. *)
Theorem efficiency_negative_estimate :
  let t := addTask 0 "Update documentation" "" "low" None (Some (-2)%Q) in
  let t0 := addTask 0 "Update documentation" "" "low" None None in
  estimatedTime t = Some (-2)%Q /\
  efficiency t = Fin (1 / -2) /\
  efficiency t <> Fin 0 /\
  lt (efficiency t) (Fin 0) = true /\
  efficiency t0 = Fin 0 /\
  lt (score 0 t) (score 0 t0) = true.
Proof.
  repeat split; try (vm_compute; reflexivity).
  intros H. by vm_compute in H.
Qed.

End ScoreFacts.

(** ** Alerts *)

Module AlertFacts.
Import AIEngine.

Lemma getNotifications_app (now : Z) (l1 l2 : list Task) :
  getNotifications now (l1 ++ l2)
  = getNotifications now l1 ++ getNotifications now l2.
Proof.
  unfold getNotifications, JS.filter_Boolean.
  by rewrite List.filter_app, map_app, omap_app.
Qed.

Lemma getNotifications_cons (now : Z) (t : Task) (l : list Task) :
  getNotifications now (t :: l)
  = getNotifications now [t] ++ getNotifications now l.
Proof. apply (getNotifications_app now [t] l). Qed.

Lemma getNotifications_one (now : Z) (t : Task) :
  getNotifications now [t] =
    if completed t then []
    else match notify now t with Some a => [a] | None => [] end.
Proof.
  unfold getNotifications, JS.filter_Boolean. simpl.
  destruct (completed t); simpl; [done|].
  destruct (deadline t) as [d|] eqn:Hd; simpl.
  - by destruct (notify now t).
  - unfold notify. by rewrite Hd.
Qed.

Lemma notify_task (now : Z) (t : Task) (a : Alert) :
  notify now t = Some a -> task a = t.
Proof.
  unfold notify. destruct (deadline t) as [d|]; [|done].
  simpl. repeat destruct (Qlt_le_dec _ _); intros [= <-]; done.
Qed.

Lemma getNotifications_sublist (now : Z) (tasks : list Task) :
  map task (getNotifications now tasks) `sublist_of` tasks.
Proof.
  induction tasks as [|t l IH]; [done|].
  rewrite getNotifications_cons, getNotifications_one.
  destruct (completed t); simpl; [by apply sublist_cons|].
  destruct (notify now t) as [a|] eqn:E; simpl; [|by apply sublist_cons].
  rewrite (notify_task now t a E). by apply sublist_skip.
Qed.

(** C3: what [getNotifications] makes of one task.  A task that is
    completed or has no deadline gives no alert.  A non-completed task
    with a deadline [h] hours ahead gives at most one alert, about this
    task: [overdue] exactly when [h < 0], [urgent] exactly when
    [0 <= h < 24], [soon] exactly when [24 <= h < 72], and none exactly
    when [72 <= h].  Inside a collection the task gets what it gets
    alone. *)
Theorem getNotifications_classifies (now : Z) (t : Task) :
  (forall l1 l2 : list Task,
     getNotifications now (l1 ++ t :: l2)
     = getNotifications now l1 ++ getNotifications now [t]
         ++ getNotifications now l2) /\
  (completed t = true \/ deadline t = None -> getNotifications now [t] = []) /\
  (forall d : Z, completed t = false -> deadline t = Some d ->
     let h := hoursUntil now d in
     let alerts := getNotifications now [t] in
     h == inject_Z (d - now) / 3600000 /\
     (length alerts <= 1)%nat /\
     Forall (fun a => task a = t) alerts /\
     (map type alerts = [overdue] <-> h < 0) /\
     (map type alerts = [urgent] <-> 0 <= h /\ h < 24) /\
     (map type alerts = [soon] <-> 24 <= h /\ h < 72) /\
     (alerts = [] <-> 72 <= h))%Q.
Proof.
  split; [|split].
  - intros l1 l2. by rewrite getNotifications_app, getNotifications_cons.
  - rewrite getNotifications_one. unfold notify.
    intros [-> | ->]; [done|]. by destruct (completed t).
  - intros d Hc Hd. simpl. rewrite getNotifications_one, Hc.
    unfold notify. rewrite Hd. simpl.
    split; [reflexivity|].
    destruct (Qlt_le_dec (hoursUntil now d) 0) as [H0|H0];
      [|destruct (Qlt_le_dec (hoursUntil now d) 24) as [H24|H24];
        [|destruct (Qlt_le_dec (hoursUntil now d) 72) as [H72|H72]]];
      simpl; (split; [lia|]); (split; [repeat constructor|]);
      repeat split; try done; try lra; intros; lra.
Qed.

(** C7: the alerts come in the order of the tasks.  When [a] comes
    before [b] in the input and each gives an alert, the alert of [a]
    comes before the alert of [b], whichever is the more pressing; and
    the tasks of the alerts, in order, are a subsequence of the input. *)
Theorem getNotifications_keeps_order (now : Z)
    (l1 l2 l3 : list Task) (a b : Task) (x y : Alert) :
  getNotifications now [a] = [x] ->
  getNotifications now [b] = [y] ->
  getNotifications now (l1 ++ a :: l2 ++ b :: l3)
  = getNotifications now l1 ++ x :: getNotifications now l2
      ++ y :: getNotifications now l3
  /\ map task (getNotifications now (l1 ++ a :: l2 ++ b :: l3))
       `sublist_of` (l1 ++ a :: l2 ++ b :: l3).
Proof.
  intros Ha Hb. split; [|apply getNotifications_sublist].
  rewrite getNotifications_app, getNotifications_cons, Ha.
  rewrite getNotifications_app, getNotifications_cons, Hb.
  done.
Qed.

Lemma getNotifications_keeps_order_witness :
  let now := 90000000 in
  let a := writeProposal 0 in
  let b := designMockup 0 in
  let x := {| task := a; type := urgent;
              msg := dquote ++ title a ++ dquote ++ " due in 23h" |} in
  let y := {| task := b; type := overdue;
              msg := dquote ++ title b ++ dquote ++ " is overdue!" |} in
  getNotifications now [a] = [x] /\
  getNotifications now [b] = [y] /\
  getNotifications now ([standupNotes 0; updateDocs 0] ++ a :: [reviewPulls 0] ++ b :: [])
  = getNotifications now [standupNotes 0; updateDocs 0] ++ x
      :: getNotifications now [reviewPulls 0] ++ y :: getNotifications now []
  /\ map task (getNotifications now
                 ([standupNotes 0; updateDocs 0] ++ a :: [reviewPulls 0] ++ b :: []))
       `sublist_of` ([standupNotes 0; updateDocs 0] ++ a :: [reviewPulls 0] ++ b :: []).
Proof.
  split; [reflexivity|]. split; [reflexivity|].
  apply (getNotifications_keeps_order 90000000
           [standupNotes 0; updateDocs 0] [reviewPulls 0] []
           (writeProposal 0) (designMockup 0)); reflexivity.
Defined.

End AlertFacts.

(** ** Analytics *)

Module AnalyticsFacts.

Lemma Math_round_nearest (q : Q) :
  (Qabs (inject_Z (JS.Math_round q) - q) <= 1 # 2)%Q.
Proof.
  unfold JS.Math_round.
  pose proof (Qfloor_le (q + (1 # 2))) as Hlo.
  pose proof (Qlt_floor (q + (1 # 2))) as Hhi.
  rewrite inject_Z_plus in Hhi. change (inject_Z 1) with 1%Q in Hhi.
  apply Qabs_Qle_condition. split; lra.
Qed.

Lemma Math_round_mono (p q : Q) :
  (p <= q)%Q -> JS.Math_round p <= JS.Math_round q.
Proof. intros H. apply Qfloor_resp_le. lra. Qed.

Lemma Math_round_Z (z : Z) : JS.Math_round (inject_Z z) = z.
Proof.
  unfold JS.Math_round.
  pose proof (Qfloor_le (inject_Z z + (1 # 2))) as Hlo.
  pose proof (Qlt_floor (inject_Z z + (1 # 2))) as Hhi.
  set (f := Qfloor _) in *.
  assert (H1 : (inject_Z f < inject_Z (z + 1))%Q)
    by (rewrite inject_Z_plus; change (inject_Z 1) with 1%Q; lra).
  assert (H2 : (inject_Z z < inject_Z (f + 1))%Q) by lra.
  rewrite <- Zlt_Qlt in H1, H2. lia.
Qed.

Lemma List_filter_Prop {A : Type} (f : A -> bool) (l : list A) :
  List.filter f l = filter (fun x => f x = true) l.
Proof.
  induction l as [|x l IH]; [done|].
  simpl. rewrite filter_cons. destruct (f x) eqn:E.
  - rewrite decide_True by done. by rewrite IH.
  - rewrite decide_False by congruence. done.
Qed.

Lemma has_priority_true (p : string) (t : Task) :
  has_priority p t = true <-> priority t = Some p.
Proof.
  unfold has_priority. destruct (priority t) as [q|]; [|done].
  rewrite String.eqb_eq. split; congruence.
Qed.

Lemma countPriority_filter (p : string) (tasks : list Task) :
  countPriority p tasks = length (filter (fun t => priority t = Some p) tasks).
Proof.
  unfold countPriority. rewrite List_filter_Prop. f_equal.
  apply list_filter_iff. intros t. apply has_priority_true.
Qed.

Lemma countPriority_cons (p : string) (t : Task) (tasks : list Task) :
  countPriority p (t :: tasks)
  = ((if has_priority p t then 1 else 0) + countPriority p tasks)%nat.
Proof. unfold countPriority. simpl. by destruct (has_priority p t). Qed.

Lemma one_bucket_at_most (t : Task) :
  ((if has_priority "high" t then 1 else 0)
   + (if has_priority "medium" t then 1 else 0)
   + (if has_priority "low" t then 1 else 0) <= 1)%nat.
Proof.
  unfold has_priority. destruct (priority t) as [p|]; [|simpl; lia].
  destruct (String.eqb_spec p "high") as [->|]; [simpl; lia|].
  destruct (String.eqb_spec p "medium") as [->|]; [simpl; lia|].
  destruct (String.eqb p "low"); lia.
Qed.

Lemma one_bucket_exactly (t : Task) :
  priority t ∈ [Some "high"; Some "medium"; Some "low"] ->
  ((if has_priority "high" t then 1 else 0)
   + (if has_priority "medium" t then 1 else 0)
   + (if has_priority "low" t then 1 else 0) = 1)%nat.
Proof.
  unfold has_priority. rewrite !elem_of_cons, elem_of_nil.
  intros [-> | [-> | [-> | []]]]; reflexivity.
Qed.

Lemma no_bucket (p : string) (t : Task) :
  priority t <> Some p -> has_priority p t = false.
Proof.
  intros Hne. apply not_true_is_false. by rewrite has_priority_true.
Qed.

Lemma value_scaled (s : bool) (M : positive) (E a : Z) :
  a <= E ->
  (JS.value (S754_finite s M E)
   == inject_Z (cond_Zopp s (Zpos M * 2 ^ (E - a))) * 2 ^ a)%Q.
Proof.
  intros Ha. rewrite NumberFacts.cond_Zopp_mul, inject_Z_mult.
  rewrite Zpower_Qpower by lia. cbn [JS.value].
  change (inject_Z 2) with 2%Q.
  rewrite <- Qmult_assoc, <- Qpower_plus by done.
  by replace (E - a + a) with E by lia.
Qed.

Lemma inexact_new_location (n k : Z) :
  Rounding.inexact (new_location n k) = if k =? 0 then 0 else 1.
Proof.
  unfold new_location, new_location_even, new_location_odd.
  destruct (Z.even n), (k =? 0); done.
Qed.

Lemma Zdigits2_le_pow (q k : Z) :
  0 <= q -> 0 <= k -> q <= 2 ^ k -> Zdigits2 q <= k + 1.
Proof.
  intros Hq Hk Hle. destruct q as [|m|m]; [cbn; lia| |lia].
  by apply NumberFacts.digits_le_pow.
Qed.

Lemma pow2_le_inv (a b : Z) : 0 <= b -> 2 ^ a <= 2 ^ b -> a <= b.
Proof.
  intros Hb H. destruct (Z_le_gt_dec a b) as [|Hgt]; [done|]. exfalso.
  assert (2 ^ (b + 1) <= 2 ^ a) by (apply Z.pow_le_mono_r; lia).
  rewrite Z.pow_add_r, Z.pow_1_r in H0 by lia.
  pose proof (Z.pow_pos_nonneg 2 b ltac:(lia) Hb). lia.
Qed.

(** The quotient of two counts, the first at most the second, is at most
    one. *)
Lemma quotient_le_one (c t : positive) :
  (c <= t)%positive ->
  let x := JS.div (JS.integer (Zpos c)) (JS.integer (Zpos t)) in
  x = S754_zero false \/
  exists (M : positive) (E : Z),
    x = S754_finite false M E /\ E <= 0 /\ Zpos M <= 2 ^ (- E).
Proof.
  intros Hct. cbv zeta. unfold JS.div. cbn [JS.integer SFdiv xorb].
  unfold SFdiv_core_binary. cbv zeta. cbn [Zdigits2].
  pose proof (NumberFacts.digits2_bounds c) as [Hc1 Hc2].
  pose proof (NumberFacts.digits2_bounds t) as [Ht1 Ht2].
  set (dc := Zpos (digits2_pos c)) in *. set (dt := Zpos (digits2_pos t)) in *.
  assert (Hd : dc <= dt).
  { apply Z.lt_succ_r. replace (Z.succ dt) with (dt + 1) by lia.
    assert (H : 2 ^ (dc - 1) < 2 ^ dt) by lia.
    apply Z.pow_lt_mono_r_iff in H; lia. }
  set (e' := Z.min (fexp JS.prec JS.emax (dc + 0 - (dt + 0))) (0 - 0)).
  assert (He' : e' < 0 /\ emin JS.prec JS.emax <= e').
  { unfold e', fexp, emin, JS.prec, JS.emax. lia. }
  set (s := 0 - 0 - e').
  assert (Hs : s = - e') by (unfold s; lia).
  destruct s as [|sp|sp] eqn:Es; [lia| |lia]. rewrite <- Es in *.
  rewrite Z.shiftl_mul_pow2 by lia.
  pose proof (Z.pow_pos_nonneg 2 s ltac:(lia) ltac:(lia)) as Hpow.
  pose proof (Z.div_eucl_eq (Zpos c * 2 ^ s) (Zpos t) ltac:(lia)) as Hdiv.
  pose proof (Z.mod_pos_bound (Zpos c * 2 ^ s) (Zpos t) ltac:(lia)) as Hmod.
  pose proof (Z.div_pos (Zpos c * 2 ^ s) (Zpos t) ltac:(lia) ltac:(lia)) as Hq0.
  unfold Z.modulo in Hmod. unfold Z.div in Hq0.
  destruct (Z.div_eucl (Zpos c * 2 ^ s) (Zpos t)) as [q r].
  assert (Hqs : q + Rounding.inexact (new_location (Zpos t) r) <= 2 ^ s).
  { rewrite inexact_new_location. destruct (Z.eqb_spec r 0); nia. }
  assert (Hq1 : q <= 2 ^ s).
  { rewrite inexact_new_location in Hqs. destruct (r =? 0); lia. }
  set (n := Z.max 0 (fexp JS.prec JS.emax (Zdigits2 q + e') - e')).
  assert (Hn : 0 <= n <= s).
  { pose proof (Zdigits2_le_pow q s Hq0 ltac:(lia) Hq1).
    unfold n, fexp, emin, JS.prec, JS.emax in *. lia. }
  destruct (NumberFacts.round_aux_upper false q e' (new_location (Zpos t) r)
              (2 ^ (s - n)) Hq0) as [H|(M & E & HE & HM & H)].
  { fold n. rewrite <- Z.pow_add_r by lia. by replace (s - n + n) with s by lia. }
  { by left. }
  fold n in HE, HM. right.
  assert (HE0 : E <= 0).
  { assert (H2 : 2 ^ (E - (e' + n)) <= 2 ^ (s - n)).
    { pose proof (Z.pow_pos_nonneg 2 (E - (e' + n)) ltac:(lia) ltac:(lia)). nia. }
    apply pow2_le_inv in H2; lia. }
  exists M, E. rewrite H.
  replace (E <=? JS.emax - JS.prec) with true
    by (symmetry; apply Z.leb_le; unfold JS.emax, JS.prec; lia).
  split; [done|]. split; [done|].
  replace (s - n) with (- E + (E - (e' + n))) in HM by lia.
  rewrite Z.pow_add_r in HM by lia.
  pose proof (Z.pow_pos_nonneg 2 (E - (e' + n)) ltac:(lia) ltac:(lia)).
  pose proof (Z.pow_pos_nonneg 2 (- E) ltac:(lia) ltac:(lia)). nia.
Qed.

(** A hundred times a value that is at most one is at most a hundred. *)
Lemma percent_le_100 (M : positive) (E : Z) :
  E <= 0 -> Zpos M <= 2 ^ (- E) ->
  let p := (S754_finite false M E * 100%Q)%js in
  JS.isNaN p = false /\ JS.side p = 0 /\ (0 <= JS.value p <= 100)%Q.
Proof.
  intros HE HM. cbv zeta.
  change (JS.Fin 100%Q) with (S754_finite false 7036874417766400 (-46)).
  unfold JS.mul. cbn [SFmul xorb].
  set (m := Zpos (M * 7036874417766400)). set (e := E + -46).
  assert (Hm : m = Zpos M * (25 * 2 ^ 48)) by (unfold m; lia).
  pose proof (Z.pow_pos_nonneg 2 (- E) ltac:(lia) ltac:(lia)) as Hp.
  set (n := Z.max 0 (fexp JS.prec JS.emax (Zdigits2 m + e) - e)).
  assert (Hn : 0 <= n <= 48 - E).
  { assert (Hd : Zdigits2 m <= 53 - E + 1).
    { apply Zdigits2_le_pow; [lia|lia|].
      rewrite Hm. replace (53 - E) with (- E + 53) by lia.
      rewrite Z.pow_add_r by lia. nia. }
    unfold n, e, fexp, emin, JS.prec, JS.emax in *. lia. }
  destruct (NumberFacts.round_aux_upper false m e loc_Exact
              (25 * 2 ^ (48 - E - n)) ltac:(lia)) as [H|(Mp & Ep & HEp & HMp & H)].
  { fold n. cbn [Rounding.inexact]. rewrite <- Z.mul_assoc, <- Z.pow_add_r by lia.
    replace (48 - E - n + n) with (- E + 48) by lia.
    rewrite Z.pow_add_r by lia. nia. }
  { rewrite H. cbn. split; [done|]. split; [done|]. split; lra. }
  fold n in HEp, HMp.
  assert (HEp7 : Ep <= 7).
  { assert (H2 : 2 ^ (Ep - (e + n)) < 2 ^ (53 - E - n)).
    { pose proof (Z.pow_pos_nonneg 2 (Ep - (e + n)) ltac:(lia) ltac:(lia)).
      pose proof (Z.pow_pos_nonneg 2 (48 - E - n) ltac:(lia) ltac:(lia)).
      replace (53 - E - n) with (48 - E - n + 5) by lia.
      rewrite Z.pow_add_r by lia. change (2 ^ 5) with 32. nia. }
    apply Z.pow_lt_mono_r_iff in H2; unfold e in *; lia. }
  rewrite H.
  replace (Ep <=? JS.emax - JS.prec) with true
    by (symmetry; apply Z.leb_le; unfold JS.emax, JS.prec; lia).
  split; [done|]. split; [done|].
  pose proof (NumberFacts.value_finite_sign false Mp Ep) as Hpos. cbn beta iota in Hpos.
  split; [lra|].
  rewrite (value_scaled false Mp Ep (e + n) HEp). cbn [cond_Zopp].
  pose proof (NumberFacts.two_pow_pos (e + n)) as H2.
  assert (Hb : (inject_Z (Zpos Mp * 2 ^ (Ep - (e + n))) * 2 ^ (e + n)
                <= inject_Z (25 * 2 ^ (48 - E - n)) * 2 ^ (e + n))%Q).
  { apply Qmult_le_compat_r; [|lra]. by rewrite <- Zle_Qle. }
  assert (Hc : (inject_Z (25 * 2 ^ (48 - E - n)) * 2 ^ (e + n) == 100)%Q).
  { rewrite inject_Z_mult, Zpower_Qpower by lia.
    change (inject_Z 2) with 2%Q. change (inject_Z 25) with 25%Q.
    rewrite <- Qmult_assoc, <- Qpower_plus by done.
    replace (48 - E - n + (e + n)) with 2 by (unfold e; lia). reflexivity. }
  lra.
Qed.

(** The quotient of a count by itself is one. *)
Lemma quotient_self (t : positive) :
  JS.div (JS.integer (Zpos t)) (JS.integer (Zpos t)) = JS.Fin 1.
Proof.
  unfold JS.div. cbn [JS.integer SFdiv xorb].
  unfold SFdiv_core_binary. cbv zeta.
  replace (Zdigits2 (Zpos t) + 0 - (Zdigits2 (Zpos t) + 0)) with 0 by lia.
  change (Z.min (fexp JS.prec JS.emax 0) (0 - 0)) with (-53).
  change (0 - 0 - -53) with 53.
  cbv beta iota. rewrite Z.shiftl_mul_pow2 by lia.
  assert (Hd : Z.div_eucl (Zpos t * 2 ^ 53) (Zpos t) = (2 ^ 53, 0)).
  { assert (Hqr : Z.div_eucl (Zpos t * 2 ^ 53) (Zpos t)
                   = ((Zpos t * 2 ^ 53) / Zpos t, (Zpos t * 2 ^ 53) mod Zpos t))
      by (unfold Z.div, Z.modulo; by destruct (Z.div_eucl _ _)).
    rewrite Hqr, (Z.mul_comm (Zpos t)), Z.div_mul, Z.mod_mul by lia. done. }
  rewrite Hd.
  assert (Hl : new_location (Zpos t) 0 = loc_Exact).
  { unfold new_location, new_location_even, new_location_odd.
    by destruct (Z.even (Zpos t)). }
  rewrite Hl. vm_compute. reflexivity.
Qed.

Lemma Math_round_bounds (q : Q) :
  (0 <= q <= 100)%Q -> 0 <= JS.Math_round q <= 100.
Proof.
  intros [Hlo Hhi]. split.
  - change 0 with (JS.Math_round (inject_Z 0)). by apply Math_round_mono.
  - rewrite <- (Math_round_Z 100). by apply Math_round_mono.
Qed.

(** The percentage of [c] among [n], as the code computes it. *)
Lemma percent_bounds (c n : nat) :
  (c <= n)%nat -> (0 < n)%nat ->
  0 <= JS.Math_round
         (JS.value (JS.integer (Z.of_nat c) / JS.integer (Z.of_nat n) * 100%Q)%js)
    <= 100.
Proof.
  intros Hcn Hn.
  destruct (Z.of_nat n) as [|t|t] eqn:En; [lia| |lia].
  destruct (Z.of_nat c) as [|k|k] eqn:Ec; [|
    |lia].
  - cbn [JS.integer]. vm_compute. split; discriminate.
  - destruct (quotient_le_one k t ltac:(lia)) as [->|(M & E & -> & HE & HM)].
    + vm_compute. split; discriminate.
    + apply Math_round_bounds. by apply percent_le_100.
Qed.

Lemma percent_all (n : nat) :
  (0 < n)%nat ->
  JS.Math_round
    (JS.value (JS.integer (Z.of_nat n) / JS.integer (Z.of_nat n) * 100%Q)%js)
  = 100.
Proof.
  intros Hn. destruct (Z.of_nat n) as [|t|t] eqn:En; [lia| |lia].
  rewrite quotient_self. vm_compute. reflexivity.
Qed.

(** C8 (as amended): the totals.  [total] is the number of tasks,
    [completed] the number of those whose flag is set, and [rate] an
    integer: [0] for an empty collection, otherwise [Math.round] of the
    binary64 product [(completed / total) * 100].  It lies between [0]
    and [100], and is [100] when every task of a non-empty collection is
    completed. *)
Theorem getAnalytics_totals `{Calendar} (now : Z) (tasks : list Task) :
  let a := getAnalytics now tasks in
  let n := Analytics.total a in
  let c := Analytics.completed a in
  let r := Analytics.rate a in
  n = length tasks /\
  c = length (filter (fun t => completed t = true) tasks) /\
  (c + length (pending tasks))%nat = n /\
  (n = 0%nat -> r = 0) /\
  ((0 < n)%nat ->
   r = Qfloor (JS.value (JS.integer (Z.of_nat c) / JS.integer (Z.of_nat n)
                         * 100%Q)%js + (1 # 2))%Q) /\
  0 <= r <= 100 /\
  (c = n -> (0 < n)%nat -> r = 100).
Proof.
  cbv zeta. unfold getAnalytics.
  cbn [Analytics.total Analytics.completed Analytics.rate].
  set (n := length tasks).
  set (c := length (List.filter (fun t => completed t) tasks)).
  assert (Hcn : (c + length (pending tasks))%nat = n)
    by apply filter_length.
  split; [done|]. split; [by rewrite <- List_filter_Prop|]. split; [done|].
  destruct (Nat.eqb_spec n 0) as [Hn|Hn].
  { split; [done|]. split; [lia|]. split; [lia|]. lia. }
  split; [done|]. split; [done|]. split.
  - apply percent_bounds; lia.
  - intros Heq _. rewrite Heq. apply percent_all. lia.
Qed.

(** C8 as stated fails: with 23 tasks completed out of 40 the exact
    percentage is [57.5], which rounds to [58]; the binary64 product is
    just below it, and the rate is [57]. *)
Lemma rate_23_of_40 :
  let tasks := replicate 23 (reviewPulls 0) ++ replicate 17 (updateDocs 0) in
  let a := getAnalytics (H := UTC.calendar) 0 tasks in
  Analytics.completed a = 23%nat /\ Analytics.total a = 40%nat /\
  Analytics.rate a = 57 /\
  Spec.rate (Analytics.completed a) (Analytics.total a) = 58 /\
  (JS.value (JS.integer 23 / JS.integer 40 * 100%Q)%js < 575 # 10)%Q.
Proof. repeat split; vm_compute; reflexivity. Qed.

(** C9: the histogram has the three buckets High, Medium and Low, in
    this order, each counting the tasks whose priority is its key.  A
    task with another priority, or none, adds to none of them, so the
    three counts sum to at most the number of tasks, and to exactly
    that number when every priority is one of the three keys. *)
Theorem getAnalytics_histogram `{Calendar} (now : Z) (tasks : list Task) :
  let recognised := [Some "high"; Some "medium"; Some "low"] in
  let buckets := Analytics.byPriority (getAnalytics now tasks) in
  map Bucket.name buckets = ["High"; "Medium"; "Low"] /\
  map Bucket.value buckets =
    [ length (filter (fun t => priority t = Some "high") tasks);
      length (filter (fun t => priority t = Some "medium") tasks);
      length (filter (fun t => priority t = Some "low") tasks) ] /\
  (forall t : Task,
     priority t ∉ recognised ->
     map Bucket.value (Analytics.byPriority (getAnalytics now (t :: tasks)))
     = map Bucket.value buckets) /\
  (sum_list (map Bucket.value buckets) <= Analytics.total (getAnalytics now tasks))%nat /\
  (Forall (fun t => priority t ∈ recognised) tasks ->
   sum_list (map Bucket.value buckets) = Analytics.total (getAnalytics now tasks)).
Proof.
  simpl. split; [done|].
  split; [by rewrite !countPriority_filter|].
  split.
  { intros t Ht. rewrite !countPriority_cons.
    rewrite !no_bucket; [done|..]; intros Hp; apply Ht; rewrite Hp;
      rewrite !elem_of_cons; auto. }
  rewrite !Nat.add_0_r.
  split.
  - induction tasks as [|t l IH]; [done|].
    rewrite !countPriority_cons. simpl.
    pose proof (one_bucket_at_most t). lia.
  - induction 1 as [|t l Ht _ IH]; [done|].
    rewrite !countPriority_cons. simpl.
    pose proof (one_bucket_exactly t Ht). lia.
Qed.






End AnalyticsFacts.
(** ** The tip *)

Module TipFacts.
Import AIEngine.











End TipFacts.

(** ** The scenarios of the specification, run *)

Module Scenarios.
Import AIEngine.

Example ranking_high_first :
  let urgentTask := addTask 0 "Ship release" "" "high" (Some 3600000) (Some 2%Q) in
  let idleTask := addTask 0 "Tidy backlog" "" "low" None None in
  suggestOrder 0 [idleTask; urgentTask] = [urgentTask; idleTask].
Proof. vm_compute. reflexivity. Qed.

Example ranking_seeded :
  map id (suggested 0 (sampleTasks 0)) = ["t1"; "t2"; "t4"].
Proof. vm_compute. reflexivity. Qed.

Example ranking_day_old_deadline_first :
  let late := addTask 0 "Renew licence" "" "low" (Some (-86400000)) None in
  score 0 late = JS.PosInf /\
  suggestOrder 0 (sampleTasks 0 ++ [late]) = late :: suggestOrder 0 (sampleTasks 0).
Proof. split; vm_compute; reflexivity. Qed.

(** A deadline exactly one day past makes the urgency infinite; an
    estimate so small that its inverse overflows makes the efficiency
    infinite; of opposite signs, they add up to NaN. *)
Example score_of_opposite_infinities :
  let t := addTask 0 "Renew licence" "" "low" (Some (-86400000))
             (Some (-1e-320)%Q) in
  urgency 0 t = JS.PosInf /\ efficiency t = JS.NegInf /\
  JS.isNaN (score 0 t) = true.
Proof. repeat split; vm_compute; reflexivity. Qed.

(** Rounding decides between scores that are equal as fractions: a
    high-priority task of one hour without deadline and one of two
    hours due in three days both score [1.4] exactly; in binary64 the
    second scores more, and is listed first whatever the input order. *)
Example ranking_rounding_breaks_a_tie :
  let a := addTask 0 "No deadline" "" "high" None (Some 1%Q) in
  let b := addTask 0 "Due in three days" "" "high" (Some 259200000) (Some 2%Q) in
  (3 * 0.4 + 0 * 0.4 + 1 / 1 * 0.2 == 3 * 0.4 + 1 / (3 + 1) * 0.4 + 1 / 2 * 0.2)%Q /\
  JS.lt (score 0 a) (score 0 b) = true /\
  suggestOrder 0 [a; b] = [b; a] /\ suggestOrder 0 [b; a] = [b; a].
Proof. repeat split; vm_compute; reflexivity. Qed.

(** ... and makes scores equal that differ as fractions: two deadlines a
    hundred years ahead and one millisecond apart give the same urgency,
    and the two tasks stay in their input order. *)
Example ranking_rounding_makes_a_tie :
  let century := 3155760000000 in
  let a := addTask 0 "Due in 100 years" "" "low" (Some century) None in
  let b := addTask 0 "Due 1 ms later" "" "low" (Some (century + 1)) None in
  score 0 a = score 0 b /\
  suggestOrder 0 [b; a] = [b; a] /\ suggestOrder 0 [a; b] = [a; b].
Proof. repeat split; vm_compute; reflexivity. Qed.

(** A clock that moves during the call: the comparator reads it once
    for each task with a deadline. *)
Example ranking_moving_clock :
  let clock := {| reading := fun k => Z.of_nat k |} in
  let a := addTask 0 "Ship release" "" "high" (Some 3600000) None in
  let b := addTask 0 "Tidy backlog" "" "low" None None in
  comparefn clock a a 5%nat
  = ((score 6 a - score 5 a)%js, 7%nat) /\
  comparefn clock b a 5%nat
  = ((score 5 a - score 5 b)%js, 6%nat) /\
  (comparefn clock b b 5%nat).2 = 5%nat.
Proof. repeat split. Qed.

Example alert_overdue_message :
  let t := addTask 0 "File taxes" "" "medium" (Some (-3600000)) None in
  getNotifications 0 [t]
  = [ {| task := t; type := overdue;
         msg := dquote ++ "File taxes" ++ dquote ++ " is overdue!" |} ].
Proof. reflexivity. Qed.

Example alert_boundaries :
  let at_hours (h : Z) := addTask 0 "Call back" "" "low" (Some (h * 3600000)) None in
  map type (getNotifications 0 [at_hours 0]) = [urgent] /\
  map type (getNotifications 0 [at_hours 24]) = [soon] /\
  map type (getNotifications 0 [at_hours 72]) = [] /\
  map msg (getNotifications 0 [at_hours 36])
  = [(dquote ++ "Call back" ++ dquote ++ " due in 2d")%string].
Proof. repeat split; reflexivity. Qed.

Example empty_collection :
  getProductivityTip (H := UTC.calendar) 0 [] = allClearTip /\
  suggestOrder 0 [] = [] /\
  getNotifications 0 [] = [] /\
  let a := getAnalytics (H := UTC.calendar) 0 [] in
  Analytics.total a = 0%nat /\ Analytics.completed a = 0%nat /\
  Analytics.rate a = 0 /\
  map (fun e => (Trend.day e, Trend.completed e, Trend.added e))
    (Analytics.completionTrend a)
  = [ ("Fri", 0, 0); ("Sat", 0, 0); ("Sun", 0, 0); ("Mon", 0, 0);
      ("Tue", 0, 0); ("Wed", 0, 0); ("Thu", 0, 0) ]%nat.
Proof. repeat split; reflexivity. Qed.

Example seeded_analytics :
  let a := getAnalytics (H := UTC.calendar) 1793577600000 (sampleTasks 1793577600000) in
  Analytics.total a = 5%nat /\ Analytics.completed a = 2%nat /\
  Analytics.rate a = 40 /\
  map Bucket.value (Analytics.byPriority a) = [2; 1; 2]%nat /\
  map (fun e => (Trend.day e, Trend.completed e, Trend.added e))
    (Analytics.completionTrend a)
  = [ ("Tue", 0, 0); ("Wed", 0, 0); ("Thu", 0, 0); ("Fri", 0, 0);
      ("Sat", 0, 0); ("Sun", 0, 0); ("Mon", 2, 5) ]%nat.
Proof. repeat split; vm_compute; reflexivity. Qed.

Example seeded_tip :
  getProductivityTip (H := UTC.calendar) 0 (sampleTasks 0) = fallbackTip /\
  getProductivityTip (H := UTC.calendar) 90000000 (sampleTasks 0) = overdueTip 1.
Proof. split; vm_compute; reflexivity. Qed.

End Scenarios.

(** ** The storage object *)

Module DBFacts.
Import Storage DB.

Lemma tasksKey_inj (a b : string) : tasksKey a = tasksKey b -> a = b.
Proof. cbv [tasksKey String.append]. by intros [= ->]. Qed.

Lemma tasksKey_not_users (uid : string) : tasksKey uid <> "stp_users".
Proof. cbv [tasksKey String.append]. discriminate. Qed.

Lemma tasksKey_not_session (uid : string) : tasksKey uid <> "stp_session".
Proof. cbv [tasksKey String.append]. discriminate. Qed.

Section WithJSON.
Context `{!JSON (list User.t) "[]" [], !JSON (list Task) "[]" [],
          !JSON (option User.t) "null" None}.

Lemma or_text_stringify {A : Type} {fallback : string} {empty : A}
    `{!JSON A fallback empty} (a : A) (d : string) :
  or_text (Some (stringify a)) d = stringify a.
Proof.
  unfold or_text. pose proof (stringify_truthy a) as Hne.
  by destruct (stringify a).
Qed.

Lemma getTasks_saveTasks (uid : string) (t : list Task) (ls : gmap string string) :
  getTasks uid (saveTasks uid t ls) = t.
Proof.
  unfold getTasks, saveTasks, getItem, setItem.
  rewrite lookup_insert_eq, or_text_stringify. apply parse_stringify.
Qed.

Lemma getTasks_saveTasks_ne (uid uid' : string) (t : list Task)
    (ls : gmap string string) :
  uid' <> uid -> getTasks uid' (saveTasks uid t ls) = getTasks uid' ls.
Proof.
  intros Hne. unfold getTasks, saveTasks, getItem, setItem.
  rewrite lookup_insert_ne; [done|]. intros Hk%tasksKey_inj. congruence.
Qed.

Lemma getUsers_saveTasks (uid : string) (t : list Task) (ls : gmap string string) :
  getUsers (saveTasks uid t ls) = getUsers ls.
Proof.
  unfold getUsers, saveTasks, getItem, setItem.
  rewrite lookup_insert_ne; [done|]. apply tasksKey_not_users.
Qed.

Lemma getSession_saveTasks (uid : string) (t : list Task) (ls : gmap string string) :
  getSession (saveTasks uid t ls) = getSession ls.
Proof.
  unfold getSession, saveTasks, getItem, setItem.
  rewrite lookup_insert_ne; [done|]. apply tasksKey_not_session.
Qed.

Lemma getUsers_saveUsers (u : list User.t) (ls : gmap string string) :
  getUsers (saveUsers u ls) = u.
Proof.
  unfold getUsers, saveUsers, getItem, setItem.
  rewrite lookup_insert_eq, or_text_stringify. apply parse_stringify.
Qed.

Lemma getTasks_saveUsers (uid : string) (u : list User.t) (ls : gmap string string) :
  getTasks uid (saveUsers u ls) = getTasks uid ls.
Proof.
  unfold getTasks, saveUsers, getItem, setItem.
  rewrite lookup_insert_ne; [done|]. intros Hk. by apply (tasksKey_not_users uid).
Qed.

Lemma getSession_saveUsers (u : list User.t) (ls : gmap string string) :
  getSession (saveUsers u ls) = getSession ls.
Proof.
  unfold getSession, saveUsers, getItem, setItem.
  by rewrite lookup_insert_ne.
Qed.

Lemma getSession_saveSession (s : User.t) (ls : gmap string string) :
  getSession (saveSession s ls) = Some s.
Proof.
  unfold getSession, saveSession, getItem, setItem.
  rewrite lookup_insert_eq, or_text_stringify. apply parse_stringify.
Qed.

Lemma getUsers_saveSession (s : User.t) (ls : gmap string string) :
  getUsers (saveSession s ls) = getUsers ls.
Proof.
  unfold getUsers, saveSession, getItem, setItem.
  by rewrite lookup_insert_ne.
Qed.

Lemma getTasks_saveSession (uid : string) (s : User.t) (ls : gmap string string) :
  getTasks uid (saveSession s ls) = getTasks uid ls.
Proof.
  unfold getTasks, saveSession, getItem, setItem.
  rewrite lookup_insert_ne; [done|]. intros Hk. by apply (tasksKey_not_session uid).
Qed.

Lemma getSession_clearSession (ls : gmap string string) :
  getSession (clearSession ls) = None.
Proof.
  unfold getSession, clearSession, getItem, removeItem.
  rewrite lookup_delete_eq. apply parse_fallback.
Qed.

Lemma getUsers_clearSession (ls : gmap string string) :
  getUsers (clearSession ls) = getUsers ls.
Proof.
  unfold getUsers, clearSession, getItem, removeItem.
  by rewrite lookup_delete_ne.
Qed.

Lemma getTasks_clearSession (uid : string) (ls : gmap string string) :
  getTasks uid (clearSession ls) = getTasks uid ls.
Proof.
  unfold getTasks, clearSession, getItem, removeItem.
  rewrite lookup_delete_ne; [done|]. intros Hk. by apply (tasksKey_not_session uid).
Qed.

(** X1: what [saveTasks] stores for a user is what [getTasks] reads back
    for that user, and is seen by nothing else: the tasks of every other
    user, the users and the session read as before. *)
Theorem saveTasks_round_trip (uid : string) (t : list Task)
    (ls : gmap string string) :
  getTasks uid (saveTasks uid t ls) = t /\
  (forall uid', uid' <> uid ->
     getTasks uid' (saveTasks uid t ls) = getTasks uid' ls) /\
  getUsers (saveTasks uid t ls) = getUsers ls /\
  getSession (saveTasks uid t ls) = getSession ls.
Proof.
  split; [apply getTasks_saveTasks|].
  split; [intros uid'; apply getTasks_saveTasks_ne|].
  split; [apply getUsers_saveTasks|apply getSession_saveTasks].
Qed.

(** X2: the users and the session.  [saveUsers] and [saveSession] are
    read back by [getUsers] and [getSession]; [clearSession] leaves no
    session; none of the three touches what the others store, nor any
    user's tasks; and a storage with nothing in it has no users, no
    tasks and no session. *)
Theorem users_session_round_trip (u : list User.t) (s : User.t)
    (ls : gmap string string) :
  (getUsers (saveUsers u ls) = u /\
   getSession (saveUsers u ls) = getSession ls /\
   forall uid, getTasks uid (saveUsers u ls) = getTasks uid ls) /\
  (getSession (saveSession s ls) = Some s /\
   getUsers (saveSession s ls) = getUsers ls /\
   forall uid, getTasks uid (saveSession s ls) = getTasks uid ls) /\
  (getSession (clearSession ls) = None /\
   getUsers (clearSession ls) = getUsers ls /\
   forall uid, getTasks uid (clearSession ls) = getTasks uid ls) /\
  (getUsers ∅ = [] /\ getSession ∅ = None /\ forall uid, getTasks uid ∅ = []).
Proof.
  repeat split;
    auto using getUsers_saveUsers, getSession_saveUsers, getTasks_saveUsers,
      getSession_saveSession, getUsers_saveSession, getTasks_saveSession,
      getSession_clearSession, getUsers_clearSession, getTasks_clearSession;
    intros; apply parse_fallback.
Qed.

End WithJSON.
End DBFacts.

(** ** Registration and login *)

Module AuthFacts.
Import DB AuthPage.

Lemma find_email_none (email : string) (users : list User.t) :
  List.find (fun u => String.eqb (User.email u) email) users = None <->
  email ∉ map User.email users.
Proof.
  induction users as [|u l IH]; simpl.
  - split; [intros _; apply not_elem_of_nil|done].
  - rewrite not_elem_of_cons. destruct (String.eqb_spec (User.email u) email).
    + split; [done|]. intros [Hne _]. congruence.
    + rewrite IH. split; [intros; split; congruence|by intros [_ ?]].
Qed.

Lemma find_login_app (email pass : string) (users : list User.t) (u : User.t) :
  email ∉ map User.email users ->
  List.find (fun v => String.eqb (User.email v) email
                      && String.eqb (User.pass v) pass) (users ++ [u])
  = if String.eqb (User.email u) email && String.eqb (User.pass u) pass
    then Some u else None.
Proof.
  induction users as [|v l IH]; simpl; [by destruct (_ && _)|].
  rewrite not_elem_of_cons. intros [Hne Hl].
  destruct (String.eqb_spec (User.email v) email); [congruence|].
  simpl. by apply IH.
Qed.

Section WithJSON.
Context `{!JSON (list User.t) "[]" [], !JSON (list Task) "[]" [],
          !JSON (option User.t) "null" None}.

Lemma register_inv (now : Z) (name email pass : string)
    (ls ls' : gmap string string) (u : User.t) :
  handleSubmit now "register" name email pass ls = LoggedIn u ls' ->
  email <> "" /\ pass <> "" /\ name <> "" /\
  (email ∉ map User.email (getUsers ls)) /\
  u = {| User.id := pretty now; User.name := name; User.email := email;
         User.pass := pass; User.createdAt := now |} /\
  ls' = saveSession u (saveUsers (getUsers ls ++ [u]) ls).
Proof.
  unfold handleSubmit.
  destruct (String.eqb_spec email ""); [done|].
  destruct (String.eqb_spec pass ""); [done|].
  simpl. destruct (String.eqb_spec name ""); [done|].
  destruct (List.find _ _) eqn:E; [done|].
  apply find_email_none in E. by intros [= <- <-].
Qed.

(** X3: a registration that succeeds appends the new user to the stored
    users, makes it the session and touches no task; the e-mail
    addresses of the stored users, distinct before, are distinct
    after. *)
Theorem register_keeps_emails_distinct (now : Z) (name email pass : string)
    (ls ls' : gmap string string) (u : User.t) :
  NoDup (map User.email (getUsers ls)) ->
  handleSubmit now "register" name email pass ls = LoggedIn u ls' ->
  getUsers ls' = getUsers ls ++ [u] /\
  User.email u = email /\ User.pass u = pass /\ User.name u = name /\
  NoDup (map User.email (getUsers ls')) /\
  getSession ls' = Some u /\
  (forall uid, getTasks uid ls' = getTasks uid ls).
Proof.
  intros Hnd (_ & _ & _ & Hfresh & -> & ->)%register_inv.
  rewrite DBFacts.getUsers_saveSession, DBFacts.getUsers_saveUsers.
  rewrite DBFacts.getSession_saveSession.
  repeat split; try done.
  - rewrite map_app. simpl. apply NoDup_app. split; [done|].
    split; [|apply NoDup_singleton].
    intros e He ->%list_elem_of_singleton. done.
  - intros uid.
    by rewrite DBFacts.getTasks_saveSession, DBFacts.getTasks_saveUsers.
Qed.

(** X4: after a registration that succeeds, signing in with the same
    e-mail address and password gives the registered user, and signing
    in with that address and another password is refused. *)
Theorem register_then_login (now : Z) (name email pass : string)
    (ls ls' : gmap string string) (u : User.t) :
  handleSubmit now "register" name email pass ls = LoggedIn u ls' ->
  forall (now' : Z) (name' : string),
    handleSubmit now' "login" name' email pass ls'
    = LoggedIn u (saveSession u ls') /\
    forall pass', pass' <> pass ->
      handleSubmit now' "login" name' email pass' ls'
      = Err (if String.eqb pass' "" then "Please fill in all fields."
             else "Invalid email or password.").
Proof.
  intros (He & Hp & _ & Hfresh & -> & ->)%register_inv now' name'.
  unfold handleSubmit.
  rewrite DBFacts.getUsers_saveSession, DBFacts.getUsers_saveUsers.
  apply String.eqb_neq in He. rewrite He. simpl.
  split.
  - apply String.eqb_neq in Hp. rewrite Hp. simpl.
    rewrite find_login_app by done. simpl. by rewrite !String.eqb_refl.
  - intros pass' Hne. destruct (String.eqb_spec pass' ""); [done|].
    simpl. rewrite find_login_app by done. simpl.
    rewrite String.eqb_refl. simpl.
    destruct (String.eqb_spec pass pass'); [congruence|done].
Qed.

(** X5: signing in succeeds exactly when both fields are filled and a
    stored user has this e-mail address and this password; it then
    gives such a stored user, makes it the session, and leaves the
    stored users as they are. *)
Theorem login_sound_and_complete (now : Z) (name email pass : string)
    (ls : gmap string string) :
  ((exists u ls', handleSubmit now "login" name email pass ls = LoggedIn u ls') <->
   email <> "" /\ pass <> "" /\
   exists u, u ∈ getUsers ls /\ User.email u = email /\ User.pass u = pass) /\
  (forall u ls',
     handleSubmit now "login" name email pass ls = LoggedIn u ls' ->
     u ∈ getUsers ls /\ User.email u = email /\ User.pass u = pass /\
     ls' = saveSession u ls /\ getUsers ls' = getUsers ls /\
     getSession ls' = Some u).
Proof.
  assert (Hinv : forall u ls',
    handleSubmit now "login" name email pass ls = LoggedIn u ls' ->
    email <> "" /\ pass <> "" /\
    u ∈ getUsers ls /\ User.email u = email /\ User.pass u = pass /\
    ls' = saveSession u ls).
  { intros u ls'. unfold handleSubmit.
    destruct (String.eqb_spec email ""); [done|].
    destruct (String.eqb_spec pass ""); [done|].
    simpl. destruct (List.find _ _) as [v|] eqn:E; [|done].
    intros [= <- <-]. apply find_some in E as [Hin Hm].
    apply andb_true_iff in Hm as [He%String.eqb_eq Hp%String.eqb_eq].
    by rewrite list_elem_of_In. }
  split.
  - split.
    + intros (u & ls' & H). apply Hinv in H as (? & ? & ? & ? & ? & _). eauto 10.
    + intros (He & Hp & u & Hin & Hue & Hup). unfold handleSubmit.
      apply String.eqb_neq in He, Hp. rewrite He, Hp. simpl.
      destruct (List.find _ _) as [v|] eqn:E; [by eauto|].
      apply list_elem_of_In in Hin.
      pose proof (find_none _ _ E u Hin) as Hf. simpl in Hf.
      by rewrite Hue, Hup, !String.eqb_refl in Hf.
  - intros u ls' (_ & _ & Hin & He & Hp & ->)%Hinv.
    by rewrite DBFacts.getUsers_saveSession, DBFacts.getSession_saveSession.
Qed.

End WithJSON.

Import Digits.

Lemma register_keeps_emails_distinct_witness :
  exists (u : User.t) (ls' : gmap string string),
    NoDup (map User.email (getUsers ∅)) /\
    handleSubmit 1793577600000 "register" "Jane Doe" "jane@example.com" "s3cret" ∅
    = LoggedIn u ls' /\
    getUsers ls' = getUsers ∅ ++ [u] /\
    User.email u = "jane@example.com" /\ User.pass u = "s3cret" /\
    User.name u = "Jane Doe" /\
    NoDup (map User.email (getUsers ls')) /\
    getSession ls' = Some u /\
    (forall uid, getTasks uid ls'
                 = getTasks uid ∅).
Proof.
  eexists _, _.
  split; [apply NoDup_nil_2|]. split; [reflexivity|].
  apply (register_keeps_emails_distinct 1793577600000
           "Jane Doe" "jane@example.com" "s3cret" ∅);
    [apply NoDup_nil_2|reflexivity].
Defined.

Lemma register_then_login_witness :
  exists (u : User.t) (ls' : gmap string string),
    handleSubmit 1793577600000 "register" "Jane Doe" "jane@example.com" "s3cret" ∅
    = LoggedIn u ls' /\
    forall (now' : Z) (name' : string),
      handleSubmit
        now' "login" name' "jane@example.com" "s3cret" ls'
      = LoggedIn u (saveSession u ls') /\
      forall pass', pass' <> "s3cret" ->
        handleSubmit
          now' "login" name' "jane@example.com" pass' ls'
        = Err (if String.eqb pass' "" then "Please fill in all fields."
               else "Invalid email or password.").
Proof.
  eexists _, _. split; [reflexivity|].
  apply (register_then_login
           1793577600000
           "Jane Doe" "jane@example.com" "s3cret" ∅).
  reflexivity.
Defined.

End AuthFacts.

(** ** The handlers of the dashboard *)

Module DashboardFacts.
Import Dashboard.

Section WithJSON.
Context `{!JSON (list User.t) "[]" [], !JSON (list Task) "[]" [],
          !JSON (option User.t) "null" None}.

Lemma stamped_toggled (now : Z) (t : Task) : stamped (toggled now t) = true.
Proof. unfold stamped, toggled. simpl. by destruct (completed t). Qed.

Lemma stamped_merge (t : Task) (data : TaskData.t) :
  stamped (merge t data) = stamped t.
Proof. reflexivity. Qed.

(** X6: the four handlers keep the tasks stamped: when, in every task,
    [completedAt] is present exactly if [completed] is set, the same
    holds of the list that [addTask], [updateTask], [deleteTask] or
    [toggleTask] saves. *)
Theorem handlers_keep_stamps (userId : string) (now : Z) (i : string)
    (modal : Task) (data : TaskData.t) (tasks : list Task)
    (ls : gmap string string) :
  Forall (fun t => stamped t = true) tasks ->
  Forall (fun t => stamped t = true) (addTask userId now data tasks ls).1 /\
  Forall (fun t => stamped t = true) (updateTask userId modal data tasks ls).1 /\
  Forall (fun t => stamped t = true) (deleteTask userId i tasks ls).1 /\
  Forall (fun t => stamped t = true) (toggleTask userId now i tasks ls).1.
Proof.
  intros Hs. simpl. repeat split.
  - apply Forall_app. split; [done|]. by repeat constructor.
  - apply Forall_map. eapply Forall_impl; [exact Hs|]. intros t Ht. simpl.
    by destruct (String.eqb _ _).
  - rewrite Forall_forall in *. intros t Ht%list_elem_of_In.
    apply filter_In in Ht as [Ht _]. by apply Hs, list_elem_of_In.
  - apply Forall_map. eapply Forall_impl; [exact Hs|]. intros t Ht. simpl.
    destruct (String.eqb _ _); [apply stamped_toggled|done].
Qed.

(** X7: toggling a task twice, on tasks that are stamped ([completedAt]
    present exactly when [completed] is set).  It gives the list back,
    except that a task that was completed gets the instant of the second
    toggle as its [completedAt]; a stamped pending task is exactly as
    before. *)
Theorem toggleTask_twice (userId : string) (now1 now2 : Z) (i : string)
    (tasks : list Task) (ls : gmap string string) :
  Forall (fun t => stamped t = true) tasks ->
  let (once, ls1) := toggleTask userId now1 i tasks ls in
  (toggleTask userId now2 i once ls1).1
  = map (fun t => if String.eqb (id t) i && completed t
                  then restamped now2 t else t) tasks.
Proof.
  intros Hs. simpl. rewrite map_map. apply map_ext_Forall.
  eapply Forall_impl; [exact Hs|]. intros t Ht. simpl.
  destruct (String.eqb (id t) i) eqn:E; simpl; [|by rewrite E].
  change (id (toggled now1 t)) with (id t). rewrite E.
  unfold stamped in Ht. destruct t as [? ? ? ? ? ? c ? ca].
  simpl in *. by destruct c, ca.
Qed.

Lemma filter_other_ids (i : string) (l : list Task) :
  i ∉ map id l ->
  List.filter (fun t => negb (String.eqb (id t) i)) l = l.
Proof.
  induction l as [|t l IH]; simpl; [done|].
  rewrite not_elem_of_cons. intros [Hne Hl].
  destruct (String.eqb_spec (id t) i); [congruence|].
  simpl. by rewrite IH.
Qed.

(** X8: with distinct ids, [deleteTask] removes the task of the id
    given and nothing else: the tasks before it and after it stay, in
    their order. *)
Theorem deleteTask_exact (userId : string) (t : Task) (l1 l2 : list Task)
    (ls : gmap string string) :
  NoDup (map id (l1 ++ t :: l2)) ->
  (deleteTask userId (id t) (l1 ++ t :: l2) ls).1 = l1 ++ l2.
Proof.
  rewrite map_app. simpl. intros Hnd.
  apply NoDup_app in Hnd as (_ & H1 & H2).
  apply NoDup_cons in H2 as [H2 _].
  rewrite List.filter_app. simpl. rewrite String.eqb_refl. simpl.
  rewrite !filter_other_ids; [done|done|].
  intros Hin. apply (H1 _ Hin). by left.
Qed.

(** X9: the id of a new task is its instant of creation.  On a list of
    distinct ids the ids stay distinct exactly when no task carries that
    instant already; two tasks added at the same instant share their id,
    and deleting by it removes both. *)
Theorem addTask_ids (userId : string) (now : Z) (data data' : TaskData.t)
    (tasks : list Task) (ls : gmap string string) :
  NoDup (map id tasks) ->
  (NoDup (map id (addTask userId now data tasks ls).1)
   <-> pretty now ∉ map id tasks) /\
  let (one, ls1) := addTask userId now data tasks ls in
  let (two, ls2) := addTask userId now data' one ls1 in
  (deleteTask userId (pretty now) two ls2).1
  = (deleteTask userId (pretty now) tasks ls).1.
Proof.
  intros Hnd. simpl. split.
  - rewrite map_app. simpl. rewrite NoDup_app. split.
    + intros (_ & Hd & _) Hin. apply (Hd _ Hin). by left.
    + intros Hn. split; [done|]. split; [|apply NoDup_singleton].
      by intros x Hx ->%list_elem_of_singleton.
  - rewrite !List.filter_app. simpl. rewrite String.eqb_refl. simpl.
    by rewrite !app_nil_r.
Qed.

Lemma updated_fields (modal : Task) (data : TaskData.t) (t : Task) :
  let t' := if String.eqb (id t) (id modal) then merge t data else t in
  id t' = id t /\ completed t' = completed t /\
  createdAt t' = createdAt t /\ completedAt t' = completedAt t.
Proof. simpl. by destruct (String.eqb _ _). Qed.

Lemma filter_map_same {A : Type} (f : A -> A) (p q : A -> bool) (l : list A) :
  (forall x, q (f x) = p x) ->
  length (List.filter q (map f l)) = length (List.filter p l).
Proof.
  intros H. induction l as [|x l IH]; simpl; [done|].
  rewrite H. destruct (p x); simpl; by rewrite IH.
Qed.

(** X10: an edit changes the five fields of the form and nothing else.
    [updateTask] keeps the number and order of the tasks, their ids,
    [completed], [createdAt] and [completedAt], and every task of
    another id as it is; so the completion percentage of the dashboard
    and the totals, the rate and the seven-day trend of the analytics
    are what they were. *)
Theorem updateTask_keeps_progress `{Calendar} (userId : string) (now : Z)
    (modal : Task) (data : TaskData.t) (tasks : list Task)
    (ls : gmap string string) :
  let tasks' := (updateTask userId modal data tasks ls).1 in
  map id tasks' = map id tasks /\
  map completed tasks' = map completed tasks /\
  map createdAt tasks' = map createdAt tasks /\
  map completedAt tasks' = map completedAt tasks /\
  (forall (k : nat) (t : Task),
     tasks !! k = Some t ->
     tasks' !! k = Some (if String.eqb (id t) (id modal) then merge t data else t)) /\
  pct tasks' = pct tasks /\
  Analytics.total (getAnalytics now tasks') = Analytics.total (getAnalytics now tasks) /\
  Analytics.completed (getAnalytics now tasks')
  = Analytics.completed (getAnalytics now tasks) /\
  Analytics.rate (getAnalytics now tasks') = Analytics.rate (getAnalytics now tasks) /\
  Analytics.completionTrend (getAnalytics now tasks')
  = Analytics.completionTrend (getAnalytics now tasks).
Proof.
  cbv zeta. unfold updateTask, save. cbn [fst].
  set (f := fun t => if String.eqb (id t) (id modal) then merge t data else t).
  assert (Hf : forall t, id (f t) = id t /\ completed (f t) = completed t /\
                         createdAt (f t) = createdAt t /\
                         completedAt (f t) = completedAt t)
    by (intros t; apply updated_fields).
  assert (Hc : length (List.filter (fun t => completed t) (map f tasks))
               = length (List.filter (fun t => completed t) tasks))
    by (apply filter_map_same; intros t; apply Hf).
  split; [rewrite map_map; apply map_ext; intros t; apply Hf|].
  split; [rewrite map_map; apply map_ext; intros t; apply Hf|].
  split; [rewrite map_map; apply map_ext; intros t; apply Hf|].
  split; [rewrite map_map; apply map_ext; intros t; apply Hf|].
  split.
  { intros k t Hk. change (map f tasks !! k) with ((f <$> tasks) !! k).
    by rewrite list_lookup_fmap, Hk. }
  split; [unfold pct, completedCount; by rewrite Hc, length_map|].
  unfold getAnalytics. cbn [Analytics.total Analytics.completed Analytics.rate
                            Analytics.completionTrend].
  rewrite Hc, length_map. repeat split.
  apply map_ext. intros day. f_equal.
  - unfold completedOn. apply filter_map_same. intros t.
    by destruct (Hf t) as (_ & _ & _ & ->).
  - unfold addedOn. apply filter_map_same. intros t.
    by destruct (Hf t) as (_ & _ & -> & _).
Qed.

Lemma filtered_active (tasks : list Task) :
  filtered "active" tasks = pending tasks.
Proof. reflexivity. Qed.

Lemma filtered_other (f : string) (tasks : list Task) :
  f <> "active" -> f <> "done" -> filtered f tasks = tasks.
Proof.
  intros Ha Hd. unfold filtered.
  apply String.eqb_neq in Ha, Hd. rewrite Ha, Hd.
  induction tasks as [|t l IH]; simpl; [done|]. by rewrite IH.
Qed.

Lemma filter_idem {A : Type} (p : A -> bool) (l : list A) :
  List.filter p (List.filter p l) = List.filter p l.
Proof.
  induction l as [|x l IH]; simpl; [done|].
  destruct (p x) eqn:E; simpl; by rewrite ?E, IH.
Qed.

Lemma filter_disjoint {A : Type} (p q : A -> bool) (l : list A) :
  (forall x, p x = true -> q x = false) ->
  List.filter q (List.filter p l) = [].
Proof.
  intros H. induction l as [|x l IH]; simpl; [done|].
  destruct (p x) eqn:E; simpl; [|done]. by rewrite (H x E).
Qed.

Lemma filter_split_perm {A : Type} (p : A -> bool) (l : list A) :
  List.filter (fun x => negb (p x)) l ++ List.filter p l ≡ₚ l.
Proof.
  induction l as [|x l IH]; simpl; [done|].
  destruct (p x); simpl.
  - rewrite <- Permutation_middle. by constructor.
  - by constructor.
Qed.

(** X11: the list the dashboard shows.  Under every filter, and
    whatever the clock reads, it is a rearrangement of the tasks the
    filter lets through, none lost and none twice: the pending ones
    first, the completed ones after them in their stored order.  When
    the clock stands still and the score of every task is a number, the
    pending ones are by non-increasing score. *)
Theorem sorted_shows_every_task (clock : Clock) (now : Z) (f : string)
    (tasks : list Task) :
  sorted clock f tasks ≡ₚ filtered f tasks /\
  (exists ranked done : list Task,
     sorted clock f tasks = ranked ++ done /\
     Forall (fun t => completed t = false) ranked /\
     Forall (fun t => completed t = true) done /\
     done = List.filter (fun t => completed t) (filtered f tasks)) /\
  (Forall (fun t => JS.isNaN (AIEngine.score now t) = false) tasks ->
   exists ranked : list Task,
     sorted now f tasks
     = ranked ++ List.filter (fun t => completed t) (filtered f tasks) /\
     StronglySorted
       (fun a b => JS.le (AIEngine.score now b) (AIEngine.score now a) = true)
       ranked).
Proof.
  unfold sorted. split; [|split].
  - rewrite RankingFacts.suggestOrder_perm. apply filter_split_perm.
  - eexists _, _. split; [reflexivity|].
    split.
    { rewrite Forall_forall. intros t.
      rewrite RankingFacts.suggestOrder_perm, list_elem_of_In, filter_In.
      intros [_ Hc]. by apply negb_true_iff. }
    split; [|done].
    rewrite Forall_forall. intros t.
    rewrite list_elem_of_In, filter_In. by intros [_ Hc].
  - intros Hn. eexists. split; [reflexivity|].
    apply RankingFacts.suggestOrder_sorted.
    rewrite Forall_forall in *. intros t Ht%list_elem_of_In.
    apply filter_In in Ht as [Ht _]. apply filter_In in Ht as [Ht _].
    by apply Hn, list_elem_of_In.
Qed.

(** X12: the three views.  [active] shows the ranking of the AI page,
    [done] the completed tasks in their stored order, and any other
    filter every task; a task is in exactly one of [active] and [done],
    so the two views together have as many rows as the third. *)
Theorem sorted_views (now : Z) (f : string) (tasks : list Task) :
  sorted now "active" tasks = suggested now tasks /\
  sorted now "done" tasks = List.filter (fun t => completed t) tasks /\
  (f <> "active" -> f <> "done" ->
   sorted now f tasks ≡ₚ tasks /\
   sorted now f tasks = sorted now "active" tasks ++ sorted now "done" tasks) /\
  (length (sorted now "active" tasks) + length (sorted now "done" tasks)
   = length tasks)%nat.
Proof.
  assert (Ha : sorted now "active" tasks = suggested now tasks).
  { unfold sorted, suggested. rewrite filtered_active. unfold pending.
    rewrite filter_idem.
    rewrite (filter_disjoint (fun t => negb (completed t)) (fun t => completed t));
      [apply app_nil_r|].
    intros t. by destruct (completed t). }
  assert (Hd : sorted now "done" tasks = List.filter (fun t => completed t) tasks).
  { unfold sorted. change (filtered "done" tasks)
      with (List.filter (fun t => completed t) tasks).
    rewrite filter_idem.
    rewrite (filter_disjoint (fun t => completed t) (fun t => negb (completed t)));
      [done|].
    intros t. by destruct (completed t). }
  split; [done|]. split; [done|]. split.
  - intros Hna Hnd. rewrite Ha, Hd. unfold sorted.
    rewrite (filtered_other f tasks Hna Hnd).
    split; [|done].
    rewrite RankingFacts.suggestOrder_perm. apply filter_split_perm.
  - rewrite Ha, Hd. unfold suggested.
    rewrite (Permutation_length (RankingFacts.suggestOrder_perm now _)).
    unfold pending.
    rewrite <- (filter_length (fun t => completed t) tasks). lia.
Qed.

(** X13: the dashboard and the analytics page agree.  The percentage,
    the completed count and the total of the dashboard are the rate,
    the completed count and the total of [getAnalytics]; completed and
    in-progress tasks add up to the total, and the in-progress figure
    is the count the tip calls pending. *)
Theorem dashboard_agrees_with_analytics `{Calendar} (now : Z) (tasks : list Task) :
  pct tasks = Analytics.rate (getAnalytics now tasks) /\
  completedCount tasks = Analytics.completed (getAnalytics now tasks) /\
  length tasks = Analytics.total (getAnalytics now tasks) /\
  (completedCount tasks + inProgress tasks)%nat = length tasks /\
  inProgress tasks = AIEngine.pendingCount tasks /\
  inProgress tasks = length (suggested now tasks).
Proof.
  repeat split.
  - apply filter_length.
  - unfold suggested.
    by rewrite (Permutation_length (RankingFacts.suggestOrder_perm now _)).
Qed.

(** X14: what a handler shows is what it stores.  The list that
    [addTask], [updateTask], [deleteTask] or [toggleTask] puts in the
    state is the list [getTasks] reads for this user afterwards, and the
    one [handleLogin] shows when the user signs in again; the tasks of
    the other users, the users and the session are not written. *)
Theorem handlers_persist (userId : string) (now : Z) (i : string)
    (modal : Task) (data : TaskData.t) (tasks : list Task)
    (ls : gmap string string) :
  Forall
    (fun r : list Task * gmap string string =>
       DB.getTasks userId r.2 = r.1 /\
       (forall (u : User.t) (st : App.state),
          User.id u = userId -> App.tasks (App.handleLogin u st r.2) = r.1) /\
       (forall uid', uid' <> userId -> DB.getTasks uid' r.2 = DB.getTasks uid' ls) /\
       DB.getUsers r.2 = DB.getUsers ls /\
       DB.getSession r.2 = DB.getSession ls)
    [ addTask userId now data tasks ls; updateTask userId modal data tasks ls;
      deleteTask userId i tasks ls; toggleTask userId now i tasks ls ].
Proof.
  assert (Hsave : forall l,
    let r := save userId l ls in
    DB.getTasks userId r.2 = r.1 /\
    (forall (u : User.t) (st : App.state),
       User.id u = userId -> App.tasks (App.handleLogin u st r.2) = r.1) /\
    (forall uid', uid' <> userId -> DB.getTasks uid' r.2 = DB.getTasks uid' ls) /\
    DB.getUsers r.2 = DB.getUsers ls /\
    DB.getSession r.2 = DB.getSession ls).
  { intros l. simpl.
    split; [apply DBFacts.getTasks_saveTasks|].
    split; [intros u st ->; apply DBFacts.getTasks_saveTasks|].
    split; [intros uid'; apply DBFacts.getTasks_saveTasks_ne|].
    split; [apply DBFacts.getUsers_saveTasks|apply DBFacts.getSession_saveTasks]. }
  repeat (apply Forall_cons_2; [apply Hsave|]). apply Forall_nil_2.
Qed.






End WithJSON.

Import Digits.

Lemma handlers_keep_stamps_witness :
  let data := {| TaskData.title := "Plan sprint"; TaskData.description := "";
                 TaskData.priority := "medium"; TaskData.deadline := None;
                 TaskData.estimatedTime := 1%Q |} in
  let tasks := sampleTasks 0 in
  Forall (fun t => stamped t = true) tasks /\
  Forall (fun t => stamped t = true) (addTask "demo" 5 data tasks ∅).1 /\
  Forall (fun t => stamped t = true)
    (updateTask "demo" (updateDocs 0) data tasks ∅).1 /\
  Forall (fun t => stamped t = true) (deleteTask "demo" "t1" tasks ∅).1 /\
  Forall (fun t => stamped t = true) (toggleTask "demo" 5 "t1" tasks ∅).1.
Proof.
  split; [by repeat constructor|].
  apply (handlers_keep_stamps "demo" 5 "t1" (updateDocs 0)).
  by repeat constructor.
Defined.

Lemma toggleTask_twice_witness :
  let tasks := sampleTasks 0 in
  Forall (fun t => stamped t = true) tasks /\
  let (once, ls1) := toggleTask "demo" 5 "t3" tasks ∅ in
  (toggleTask "demo" 9 "t3" once ls1).1
  = map (fun t => if String.eqb (id t) "t3" && completed t
                  then restamped 9 t else t) tasks.
Proof.
  split; [by repeat constructor|].
  apply (toggleTask_twice "demo" 5 9 "t3" (sampleTasks 0) ∅).
  by repeat constructor.
Defined.

Lemma deleteTask_exact_witness :
  NoDup (map id ([designMockup 0; writeProposal 0] ++
                 reviewPulls 0 :: [updateDocs 0; standupNotes 0])) /\
  (deleteTask "demo" (id (reviewPulls 0))
     ([designMockup 0; writeProposal 0] ++
      reviewPulls 0 :: [updateDocs 0; standupNotes 0]) ∅).1
  = [designMockup 0; writeProposal 0] ++ [updateDocs 0; standupNotes 0].
Proof.
  assert (Hnd : NoDup (map id ([designMockup 0; writeProposal 0] ++
                 reviewPulls 0 :: [updateDocs 0; standupNotes 0])))
    by (refine (bool_decide_unpack _ _); vm_compute; exact I).
  split; [exact Hnd|].
  exact (deleteTask_exact "demo" (reviewPulls 0)
           [designMockup 0; writeProposal 0] [updateDocs 0; standupNotes 0] ∅ Hnd).
Defined.

Lemma addTask_ids_witness :
  let data := {| TaskData.title := "Plan sprint"; TaskData.description := "";
                 TaskData.priority := "medium"; TaskData.deadline := None;
                 TaskData.estimatedTime := 1%Q |} in
  let tasks := sampleTasks 0 in
  NoDup (map id tasks) /\
  (NoDup (map id (addTask "demo" 5 data tasks ∅).1)
   <-> pretty 5 ∉ map id tasks) /\
  let (one, ls1) := addTask "demo" 5 data tasks ∅ in
  let (two, ls2) := addTask "demo" 5 data one ls1 in
  (deleteTask "demo" (pretty 5) two ls2).1
  = (deleteTask "demo" (pretty 5) tasks ∅).1.
Proof.
  assert (Hnd : NoDup (map id (sampleTasks 0)))
    by (refine (bool_decide_unpack _ _); vm_compute; exact I).
  split; [exact Hnd|].
  exact (addTask_ids "demo" 5 _ _ (sampleTasks 0) ∅ Hnd).
Defined.

End DashboardFacts.

(** ** The figures of the analytics page and of the AI page *)

Module PageFacts.
Import JS AIEngine.

Lemma estimated_inv (t : Task) :
  AnalyticsPage.estimated t = true ->
  exists e, estimatedTime t = Some e /\ (0 < e)%Q
            /\ Rounding.positive_or_zero (AnalyticsPage.estimate t) = true.
Proof.
  unfold AnalyticsPage.estimated, AnalyticsPage.estimate.
  destruct (estimatedTime t) as [e|]; [|done].
  intros [Hpos Hnn]%NumberFacts.Fin_positive. eauto.
Qed.

Lemma fold_estimates (l : list Task) (a : number) :
  Forall (fun t => AnalyticsPage.estimated t = true) l ->
  Rounding.positive_or_zero a = true ->
  Rounding.positive_or_zero
    (fold_left (fun a b => (a + AnalyticsPage.estimate b)%js) l a) = true.
Proof.
  intros Hl. revert a. induction Hl as [|t l Ht Hl IH]; intros a Ha; [done|].
  cbn [fold_left]. apply IH.
  apply estimated_inv in Ht as (e & _ & _ & He).
  by apply NumberFacts.add_positive_or_zero.
Qed.

Lemma filter_estimated_Forall (tasks : list Task) :
  Forall (fun t => AnalyticsPage.estimated t = true)
    (List.filter AnalyticsPage.estimated tasks).
Proof.
  rewrite Forall_forall. intros t Ht%list_elem_of_In.
  by apply filter_In in Ht as [_ Ht].
Qed.

(** X16: the average estimate of the analytics page is a number that is
    not negative, never NaN: nothing is divided by zero.  It is [0] when
    no task has an estimate greater than zero; the tasks with no
    estimate, a zero or a negative one do not enter it. *)
Theorem avgTime_is_a_number (tasks : list Task) :
  le (Fin 0) (AnalyticsPage.avgTime tasks) = true /\
  isNaN (AnalyticsPage.avgTime tasks) = false /\
  (Forall (fun t => AnalyticsPage.estimated t = false) tasks ->
   AnalyticsPage.avgTime tasks = Fin 0) /\
  AnalyticsPage.avgTime (List.filter AnalyticsPage.estimated tasks)
  = AnalyticsPage.avgTime tasks /\
  (forall t : Task,
     AnalyticsPage.estimated t = true ->
     exists e, estimatedTime t = Some e /\ (0 < e)%Q).
Proof.
  assert (Hnn : Rounding.positive_or_zero (AnalyticsPage.avgTime tasks) = true).
  { unfold AnalyticsPage.avgTime. cbv zeta.
    set (counted := List.filter AnalyticsPage.estimated tasks).
    pose proof (fold_estimates counted (Fin 0) (filter_estimated_Forall tasks) eq_refl)
      as Hsum.
    destruct (Nat.eqb_spec (length counted) 0) as [E|E].
    - by apply (NumberFacts.div_positive_or_zero _ 1).
    - destruct (Z.of_nat (length counted)) as [|n|n] eqn:En; [lia| |lia].
      by apply NumberFacts.div_positive_or_zero. }
  pose proof (NumberFacts.positive_or_zero_le _ Hnn) as Hle.
  split; [done|]. split; [by apply NumberFacts.le_spec in Hle as (_ & ? & _)|].
  split; [|split].
  - intros Hall. unfold AnalyticsPage.avgTime. cbv zeta.
    assert (E : List.filter AnalyticsPage.estimated tasks = []).
    { clear Hnn Hle. induction Hall as [|t l Ht Hl IH]; [done|].
      cbn [List.filter]. by rewrite Ht. }
    rewrite E. reflexivity.
  - unfold AnalyticsPage.avgTime. by rewrite DashboardFacts.filter_idem.
  - intros t (e & He & Hpos & _)%estimated_inv. eauto.
Qed.

(** The sum is rounded at every step, and overflows. *)
Example avgTime_rounds :
  let hours (e : Q) := addTask 0 "Read" "" "low" None (Some e) in
  AnalyticsPage.avgTime [hours 0.1%Q; hours 0.1%Q; hours 0.1%Q]
  = S754_finite false 7205759403792795 (-56) /\
  Fin 0.1%Q = S754_finite false 7205759403792794 (-56) /\
  AnalyticsPage.avgTime [hours 1e308%Q; hours 1e308%Q] = PosInf.
Proof. repeat split; vm_compute; reflexivity. Qed.

(** X17: the entry marked START HERE.  There is none exactly when no
    task is pending; otherwise it is a pending task of the collection.
    When the clock stands still and the score of every task is a number,
    no pending task has a greater score. *)
Theorem startHere_is_best (clock : Clock) (now : Z) (tasks : list Task) :
  (AISuggestionsPage.startHere clock tasks = None <->
   Forall (fun t => completed t = true) tasks) /\
  (forall t : Task,
     AISuggestionsPage.startHere clock tasks = Some t ->
     t ∈ tasks /\ completed t = false) /\
  (Forall (fun t => isNaN (score now t) = false) tasks ->
   forall t : Task,
     AISuggestionsPage.startHere now tasks = Some t ->
     forall t' : Task, t' ∈ tasks -> completed t' = false ->
                       le (score now t') (score now t) = true).
Proof.
  unfold AISuggestionsPage.startHere.
  split; [|split].
  - pose proof (RankingFacts.suggestOrder_perm clock (pending tasks)) as Hp.
    fold (suggested clock tasks) in Hp.
    destruct (suggested clock tasks) as [|t l] eqn:E; simpl.
    + split; [intros _|done]. symmetry in Hp. apply Permutation_nil_r in Hp.
      rewrite Forall_forall. intros t Ht.
      destruct (completed t) eqn:Hc; [done|].
      assert (Hin : t ∈ pending tasks) by by apply RankingFacts.elem_of_pending.
      rewrite Hp in Hin. by apply elem_of_nil in Hin.
    + split; [done|]. intros Hall. exfalso.
      assert (Hin : t ∈ pending tasks) by (rewrite <- Hp; by left).
      apply RankingFacts.elem_of_pending in Hin as [Hin Hc].
      rewrite Forall_forall in Hall. rewrite (Hall t Hin) in Hc. done.
  - intros t Ht. apply list_elem_of_lookup_2 in Ht.
    unfold suggested in Ht. rewrite RankingFacts.suggestOrder_perm in Ht.
    by apply RankingFacts.elem_of_pending.
  - intros Hn t Ht t' Hin' Hc'.
    pose proof (RankingFacts.suggestOrder_perm now (pending tasks)) as Hp.
    pose proof (RankingFacts.suggestOrder_sorted now (pending tasks)
                  (RankingFacts.Forall_pending _ _ Hn)) as Hs.
    fold (suggested now tasks) in Hp, Hs.
    destruct (suggested now tasks) as [|t0 l] eqn:E; [done|].
    simpl in Ht. injection Ht as ->.
    assert (Hin2 : t' ∈ t :: l)
      by (rewrite Hp; by apply RankingFacts.elem_of_pending).
    apply elem_of_cons in Hin2 as [-> | Hin2].
    + apply NumberFacts.le_refl. rewrite Forall_forall in Hn. by apply Hn.
    + inversion Hs as [|? ? _ Hall]; subst.
      rewrite Forall_forall in Hall. by apply Hall.
Qed.

End PageFacts.

(** ** Equal scores *)

Module ScoreOrder.
Import JS AIEngine.

Lemma filter_cons_inv {A : Type} (p : A -> bool) (l : list A) (x : A) (r : list A) :
  List.filter p l = x :: r ->
  exists l1 l2, l = l1 ++ x :: l2 /\ List.filter p l2 = r.
Proof.
  induction l as [|y l IH]; simpl; [done|].
  destruct (p y).
  - intros [= -> <-]. by exists [], l.
  - intros (l1 & l2 & -> & H)%IH. by exists (y :: l1), l2.
Qed.

Lemma filter_app_cons_inv {A : Type} (p : A -> bool) (l : list A)
    (q : list A) (x : A) (r : list A) :
  List.filter p l = q ++ x :: r ->
  exists l1 l2, l = l1 ++ x :: l2 /\ List.filter p l2 = r.
Proof.
  revert l. induction q as [|y q IH]; intros l; simpl.
  - apply filter_cons_inv.
  - intros (l1 & l2 & -> & H)%filter_cons_inv.
    apply IH in H as (l3 & l4 & -> & H).
    exists (l1 ++ y :: l3), l4. split; [|done].
    by rewrite <- app_assoc.
Qed.

(** X21: ties keep the order of the input.  The clock standing still
    and the score of every task being a number: when the scores of two
    tasks are equal (the comparator returns zero, or NaN for two
    infinite scores) and [a] comes before [b] in the input, [a] comes
    before [b] in the ranking. *)
Theorem ties_keep_input_order (now : Z) (l1 l2 l3 : list Task) (a b : Task) :
  Forall (fun t => isNaN (score now t) = false) (l1 ++ a :: l2 ++ b :: l3) ->
  tie (score now) a b = true ->
  exists o1 o2 o3 : list Task,
    suggestOrder now (l1 ++ a :: l2 ++ b :: l3) = o1 ++ a :: o2 ++ b :: o3.
Proof.
  intros Hn Hab.
  pose proof (RankingFacts.suggestOrder_stable now a (l1 ++ a :: l2 ++ b :: l3) Hn)
    as Hst.
  rewrite !List.filter_app in Hst. cbn [List.filter] in Hst.
  rewrite List.filter_app in Hst. cbn [List.filter] in Hst.
  rewrite Hab in Hst.
  assert (Haa : tie (score now) a a = true).
  { unfold tie. apply andb_true_iff in Hab as [Hab _].
    apply NumberFacts.le_spec in Hab as (Ha & _).
    by rewrite NumberFacts.le_refl. }
  rewrite Haa in Hst.
  apply filter_app_cons_inv in Hst as (o1 & r & -> & Hr).
  apply filter_app_cons_inv in Hr as (o2 & o3 & -> & _).
  by exists o1, o2, o3.
Qed.

Lemma ties_keep_input_order_witness :
  let century := 3155760000000 in
  let a := addTask 0 "Due in 100 years" "" "low" (Some century) None in
  let b := addTask 0 "Due 1 ms later" "" "low" (Some (century + 1)) None in
  Forall (fun t => isNaN (score 0 t) = false)
    ([designMockup 0] ++ b :: [writeProposal 0] ++ a :: []) /\
  tie (score 0) b a = true /\
  exists o1 o2 o3 : list Task,
    suggestOrder 0 ([designMockup 0] ++ b :: [writeProposal 0] ++ a :: [])
    = o1 ++ b :: o2 ++ a :: o3.
Proof.
  assert (Hn : Forall (fun t => isNaN (score 0 t) = false)
                 ([designMockup 0]
                  ++ addTask 0 "Due 1 ms later" "" "low" (Some (3155760000000 + 1)) None
                  :: [writeProposal 0]
                  ++ addTask 0 "Due in 100 years" "" "low" (Some 3155760000000) None
                  :: []))
    by (repeat (apply Forall_cons_2; [vm_compute; reflexivity|]); apply Forall_nil_2).
  assert (Ht : tie (score 0)
                 (addTask 0 "Due 1 ms later" "" "low" (Some (3155760000000 + 1)) None)
                 (addTask 0 "Due in 100 years" "" "low" (Some 3155760000000) None)
               = true) by (vm_compute; reflexivity).
  split; [exact Hn|]. split; [exact Ht|].
  exact (ties_keep_input_order 0 [designMockup 0] [writeProposal 0] []
           _ _ Hn Ht).
Defined.

End ScoreOrder.

(** ** The seven-day trend *)

Module TrendFacts.



Section WithCalendar.
Context `{Calendar}.



End WithCalendar.


End TrendFacts.

(** ** Mounting the application, logging in and out *)

Module AppFacts.
Import DB AuthPage App.

Lemma hasDemo_app (users : list User.t) (now : Z) :
  hasDemo (users ++ [demo now]) = true.
Proof.
  unfold hasDemo. induction users as [|u l IH]; simpl; [done|].
  by destruct (String.eqb _ _).
Qed.

Lemma hasDemo_emails (users : list User.t) :
  hasDemo users = false -> "demo@task.com" ∉ map User.email users.
Proof.
  unfold hasDemo. destruct (List.find _ _) eqn:E; [done|].
  intros _. by apply AuthFacts.find_email_none.
Qed.

Section WithJSON.
Context `{!JSON (list User.t) "[]" [], !JSON (list Task) "[]" [],
          !JSON (option User.t) "null" None}.

Lemma mount_users (now : Z) (st : state) (ls : gmap string string) :
  getUsers (mount now st ls).2
  = if hasDemo (getUsers ls) then getUsers ls else getUsers ls ++ [demo now].
Proof.
  unfold mount.
  destruct (getSession ls), (hasDemo (getUsers ls)); cbn [snd];
    by rewrite ?DBFacts.getUsers_saveTasks, ?DBFacts.getUsers_saveUsers.
Qed.

Lemma mount_session (now : Z) (st : state) (ls : gmap string string) :
  getSession (mount now st ls).2 = getSession ls.
Proof.
  unfold mount.
  destruct (getSession ls) eqn:E, (hasDemo (getUsers ls)); cbn [snd];
    by rewrite ?DBFacts.getSession_saveTasks, ?DBFacts.getSession_saveUsers.
Qed.

Lemma mount_tasks (now : Z) (st : state) (ls : gmap string string) (uid : string) :
  uid <> "demo" -> getTasks uid (mount now st ls).2 = getTasks uid ls.
Proof.
  intros Hne. unfold mount.
  destruct (getSession ls), (hasDemo (getUsers ls)); cbn [snd];
    by rewrite ?DBFacts.getTasks_saveTasks_ne, ?DBFacts.getTasks_saveUsers.
Qed.

Lemma handleSubmit_session (now : Z) (tab name email pass : string)
    (ls ls' : gmap string string) (u : User.t) :
  handleSubmit now tab name email pass ls = LoggedIn u ls' ->
  getSession ls' = Some u.
Proof.
  unfold handleSubmit. destruct (_ || _); [done|]. cbv zeta.
  destruct (String.eqb tab "register").
  - destruct (String.eqb name ""); [done|].
    destruct (List.find _ _); [done|].
    intros [= <- <-]. apply DBFacts.getSession_saveSession.
  - destruct (List.find _ _); [|done].
    intros [= <- <-]. apply DBFacts.getSession_saveSession.
Qed.

(** X23: mounting the application leaves a user with the e-mail address
    of the demo account among the stored users, adding the demo user at
    the end when there was none; it keeps the stored session and the
    tasks of every user but [demo]; a second mount, at any time and in
    any state, writes nothing. *)
Theorem mount_seeds_demo_once (now now' : Z) (st st' : state)
    (ls : gmap string string) :
  let ls1 := (mount now st ls).2 in
  hasDemo (getUsers ls1) = true /\
  (getUsers ls1 = getUsers ls \/ getUsers ls1 = getUsers ls ++ [demo now]) /\
  getSession ls1 = getSession ls /\
  (forall uid, uid <> "demo" -> getTasks uid ls1 = getTasks uid ls) /\
  (mount now' st' ls1).2 = ls1.
Proof.
  cbv zeta.
  assert (Hd : hasDemo (getUsers (mount now st ls).2) = true).
  { rewrite mount_users. destruct (hasDemo (getUsers ls)) eqn:E; [done|].
    apply hasDemo_app. }
  split; [exact Hd|]. split.
  { rewrite mount_users. destruct (hasDemo (getUsers ls)); [by left|by right]. }
  split; [apply mount_session|]. split; [intros; by apply mount_tasks|].
  unfold mount at 1. rewrite Hd. by destruct (getSession _).
Qed.

(** X24: the sample tasks are stored only by a mount that finds a
    session.  A mount that finds no session and no demo user stores the
    demo user alone: logging in as [demo@task.com] with [demo123] then
    succeeds, and the task list shown is the one that was stored under
    the demo user's key before, the empty list when nothing was. *)
Theorem demo_login_after_first_mount (now now' : Z) (st : state)
    (ls : gmap string string) :
  getSession ls = None ->
  hasDemo (getUsers ls) = false ->
  let (st1, ls1) := mount now st ls in
  let (st2, ls2) := submit now' "login" "" "demo@task.com" "demo123" st1 ls1 in
  user st2 = Some (demo now) /\
  getSession ls2 = Some (demo now) /\
  tasks st2 = getTasks "demo" ls /\
  (ls !! tasksKey "demo" = None -> tasks st2 = []).
Proof.
  intros Hs Hd. unfold mount. rewrite Hs, Hd. cbv zeta.
  unfold submit, handleSubmit. cbn [String.eqb Ascii.eqb Bool.eqb orb].
  rewrite DBFacts.getUsers_saveUsers.
  rewrite (AuthFacts.find_login_app _ _ _ _ (hasDemo_emails _ Hd)).
  cbn [demo User.email User.pass String.eqb Ascii.eqb Bool.eqb andb].
  cbn [handleLogin user tasks User.id].
  rewrite DBFacts.getSession_saveSession, DBFacts.getTasks_saveSession,
    DBFacts.getTasks_saveUsers.
  split; [done|]. split; [done|]. split; [done|].
  intros Hk. unfold getTasks, Storage.getItem. change (User.id (demo now)) with "demo". rewrite Hk. cbn [Storage.or_text].
  apply parse_fallback.
Qed.

(** X25: a session survives a reload.  After a submission that logs a
    user in, mounting the application afresh on the storage it left
    shows the same user with the same tasks; after [handleLogout] it
    shows nobody, and the stored users and tasks are still there. *)
Theorem session_survives_reload (now now' : Z) (tab name email pass : string)
    (st : state) (ls ls' : gmap string string) (u : User.t) :
  handleSubmit now tab name email pass ls = LoggedIn u ls' ->
  let st1 := (submit now tab name email pass st ls).1 in
  user st1 = Some u /\
  user (mount now' initial ls').1 = user st1 /\
  tasks (mount now' initial ls').1 = tasks st1 /\
  let (st2, ls2) := handleLogout st1 ls' in
  user st2 = None /\ tasks st2 = [] /\
  user (mount now' initial ls2).1 = None /\
  getUsers ls2 = getUsers ls' /\
  forall uid, getTasks uid ls2 = getTasks uid ls'.
Proof.
  intros Hsub. cbv zeta. unfold submit. rewrite Hsub. cbn [fst handleLogin user tasks].
  pose proof (handleSubmit_session _ _ _ _ _ _ _ _ Hsub) as Hs.
  split; [done|].
  split; [|split].
  - unfold mount. rewrite Hs. by destruct (hasDemo (getUsers ls')).
  - unfold mount. rewrite Hs. by destruct (hasDemo (getUsers ls')).
  - unfold handleLogout. cbn [user tasks].
    split; [done|]. split; [done|]. split.
    + unfold mount. rewrite DBFacts.getSession_clearSession.
      by destruct (hasDemo (getUsers (clearSession ls'))).
    + split; [apply DBFacts.getUsers_clearSession|].
      intros. apply DBFacts.getTasks_clearSession.
Qed.

(** X26: what a handler of the dashboard saves for the logged-in user
    is what the next mount loads. *)
Theorem tasks_survive_reload (now : Z) (u : User.t) (l : list Task)
    (st : state) (ls : gmap string string) :
  getSession ls = Some u ->
  let ls' := (Dashboard.save (User.id u) l ls).2 in
  user (mount now st ls').1 = Some u /\ tasks (mount now st ls').1 = l.
Proof.
  intros Hs. cbv zeta. unfold Dashboard.save. cbn [snd]. unfold mount.
  rewrite DBFacts.getSession_saveTasks, Hs.
  destruct (hasDemo (getUsers (saveTasks (User.id u) l ls)));
    cbn [fst user tasks]; by rewrite DBFacts.getTasks_saveTasks.
Qed.

End WithJSON.

Import Digits.

Lemma demo_login_after_first_mount_witness :
  getSession ∅ = None /\
  hasDemo (getUsers ∅) = false /\
  let (st1, ls1) := mount 5 initial ∅ in
  let (st2, ls2) := submit 7 "login" "" "demo@task.com" "demo123" st1 ls1 in
  App.user st2 = Some (demo 5) /\
  getSession ls2 = Some (demo 5) /\
  App.tasks st2 = getTasks "demo" ∅ /\
  ((∅ : gmap string string) !! tasksKey "demo" = None -> App.tasks st2 = []).
Proof.
  split; [reflexivity|]. split; [reflexivity|].
  apply (demo_login_after_first_mount 5 7 initial ∅); reflexivity.
Defined.

Lemma session_survives_reload_witness :
  exists (u : User.t) (ls' : gmap string string),
    handleSubmit 5 "register" "Ann" "ann@x.org" "pw" ∅ = LoggedIn u ls' /\
    let st1 := (submit 5 "register" "Ann" "ann@x.org" "pw" initial ∅).1 in
    App.user st1 = Some u /\
    App.user (mount 9 initial ls').1 = App.user st1 /\
    App.tasks (mount 9 initial ls').1 = App.tasks st1 /\
    let (st2, ls2) := handleLogout st1 ls' in
    App.user st2 = None /\ App.tasks st2 = [] /\
    App.user (mount 9 initial ls2).1 = None /\
    getUsers ls2 = getUsers ls' /\
    forall uid, getTasks uid ls2 = getTasks uid ls'.
Proof.
  eexists _, _. split; [reflexivity|].
  apply (session_survives_reload 5 9 "register" "Ann" "ann@x.org" "pw" initial ∅).
  reflexivity.
Defined.

Lemma tasks_survive_reload_witness :
  let u := demo 5 in
  let ls := saveSession u ∅ in
  getSession ls = Some u /\
  let ls' := (Dashboard.save (User.id u) (sampleTasks 5) ls).2 in
  App.user (mount 9 initial ls').1 = Some u /\
  App.tasks (mount 9 initial ls').1 = sampleTasks 5.
Proof.
  split; [vm_compute; reflexivity|].
  apply (tasks_survive_reload 9 (demo 5) (sampleTasks 5) initial
           (saveSession (demo 5) ∅)).
  vm_compute; reflexivity.
Defined.

End AppFacts.

(** ** The form of a task *)

Module ModalFacts.
Import JSString TaskModal.

Lemma strip_spec (b : bool) (s : list ascii) :
  clean b (strip b s) = true /\ exists p, s = p ++ strip b s.
Proof.
  remember (length s) as n eqn:Hn.
  assert (Hle : (length s <= n)%nat) by lia. clear Hn. revert s Hle.
  induction n as [|n IH]; intros s Hle.
  { destruct s; [|simpl in Hle; lia]. split; [done|by exists []]. }
  destruct s as [|c1 s1]; [split; [done|by exists []]|].
  cbn [strip]. cbn [length] in Hle.
  destruct (ws1 c1) eqn:E1.
  { destruct (IH s1 ltac:(lia)) as [Hc [p Hp]].
    split; [done|]. exists (c1 :: p). cbn [app]. congruence. }
  destruct s1 as [|c2 s2].
  { split; [cbn [clean]; by rewrite E1|by exists []]. }
  cbn [length] in Hle.
  destruct (if b then ws2 c2 c1 else ws2 c1 c2) eqn:E2.
  { destruct (IH s2 ltac:(lia)) as [Hc [p Hp]].
    split; [done|]. exists (c1 :: c2 :: p). cbn [app]. congruence. }
  destruct s2 as [|c3 s3].
  { split; [cbn [clean]; by rewrite E1, E2|by exists []]. }
  cbn [length] in Hle.
  destruct (if b then ws3 c3 c2 c1 else ws3 c1 c2 c3) eqn:E3.
  { destruct (IH s3 ltac:(lia)) as [Hc [p Hp]].
    split; [done|]. exists (c1 :: c2 :: c3 :: p). cbn [app]. congruence. }
  split; [cbn [clean]; by rewrite E1, E2, E3|by exists []].
Qed.

Lemma clean_strip (b : bool) (s : list ascii) :
  clean b s = true -> strip b s = s.
Proof.
  destruct s as [|c1 [|c2 [|c3 s3]]]; cbn [clean strip]; [done|..].
  - by destruct (ws1 c1).
  - destruct (ws1 c1); [done|].
    by destruct (if b then ws2 c2 c1 else ws2 c1 c2).
  - destruct (ws1 c1); [done|].
    destruct (if b then ws2 c2 c1 else ws2 c1 c2); [done|].
    by destruct (if b then ws3 c3 c2 c1 else ws3 c1 c2 c3).
Qed.

Lemma clean_prefix (b : bool) (x y : list ascii) :
  clean b (x ++ y) = true -> clean b x = true.
Proof.
  destruct x as [|c1 [|c2 [|c3 x3]]]; cbn [clean app]; [done|..].
  - by destruct (ws1 c1).
  - destruct (ws1 c1); [done|].
    by destruct (if b then ws2 c2 c1 else ws2 c1 c2).
  - done.
Qed.

Lemma trim_idem (s : string) : trim (trim s) = trim s.
Proof.
  unfold trim. rewrite String.list_ascii_of_string_of_list_ascii.
  destruct (strip_spec false (String.list_ascii_of_string s)) as [Ha _].
  set (a := strip false (String.list_ascii_of_string s)) in *.
  destruct (strip_spec true (List.rev a)) as [Hb [p Hp]].
  set (b := strip true (List.rev a)) in *.
  assert (Ea : a = List.rev b ++ List.rev p).
  { rewrite <- List.rev_app_distr, <- Hp. by rewrite List.rev_involutive. }
  rewrite Ea in Ha. apply clean_prefix in Ha.
  by rewrite (clean_strip _ _ Ha), List.rev_involutive, (clean_strip _ _ Hb).
Qed.

Lemma strip_blank (b : bool) (l : list ascii) :
  Forall (fun c => ws1 c = true) l -> strip b l = [].
Proof.
  induction 1 as [|c l Hc _ IH]; [done|]. cbn [strip]. by rewrite Hc.
Qed.

Lemma hours_init (e : Q) (typed : option Q) :
  e = hours typed ->
  hours (if JS.truthy e then Some e else None) = e.
Proof.
  intros ->. unfold hours. destruct typed as [h|]; [|done].
  destruct (JS.truthy h) eqn:E; [|reflexivity].
  rewrite E. cbv beta iota. by rewrite E.
Qed.

(** X27: a title made of blanks, tabs and line breaks only (the empty
    title among them) is refused: [handleSave] returns without calling
    [onSave]. *)
Theorem blank_title_is_refused (f : Form.t) :
  Forall (fun c => ws1 c = true) (String.list_ascii_of_string (Form.title f)) ->
  handleSave f = None.
Proof.
  intros Hb. unfold handleSave, trim. by rewrite (strip_blank _ _ Hb).
Qed.

(** X28: what [handleSave] passes on has a title that is not empty and
    that trimming leaves as it is; the description, priority and
    deadline of the form; and as estimate the number typed, or 0 when
    the field was empty or held 0. *)
Theorem handleSave_trims (f : Form.t) (data : TaskData.t) :
  handleSave f = Some data ->
  TaskData.title data <> "" /\
  trim (TaskData.title data) = TaskData.title data /\
  TaskData.description data = Form.desc f /\
  TaskData.priority data = Form.priority f /\
  TaskData.deadline data = Form.deadline f /\
  match Form.estimatedTime f with
  | Some h => if JS.truthy h then TaskData.estimatedTime data = h
              else TaskData.estimatedTime data = 0%Q
  | None => TaskData.estimatedTime data = 0%Q
  end.
Proof.
  unfold handleSave.
  destruct (String.eqb_spec (trim (Form.title f)) "") as [|Hne]; [done|].
  intros [= <-].
  cbn [TaskData.title TaskData.description TaskData.priority TaskData.deadline
       TaskData.estimatedTime].
  split; [done|]. split; [apply trim_idem|].
  do 3 (split; [done|]). unfold hours.
  destruct (Form.estimatedTime f) as [h|]; [|done]. by destruct (JS.truthy h).
Qed.

(** X29: opening the form on a task that was saved from it and saving
    again without a change passes on the same data, and [updateTask]
    with them leaves the task as it is.  The task is the one [addTask]
    made of the data, or any task [updateTask] merged them into; the
    priority is one of the select's, not the empty text. *)
Theorem edit_without_change (f : Form.t) (data : TaskData.t) (now : Z) (t0 : Task) :
  handleSave f = Some data ->
  Form.priority f <> "" ->
  handleSave (init (Some (Dashboard.newTask now data))) = Some data /\
  handleSave (init (Some (Dashboard.merge t0 data))) = Some data /\
  Dashboard.merge (Dashboard.newTask now data) data = Dashboard.newTask now data /\
  Dashboard.merge (Dashboard.merge t0 data) data = Dashboard.merge t0 data.
Proof.
  intros Hsave Hp.
  assert (Hgen : forall t : Task,
            title t = TaskData.title data ->
            description t = TaskData.description data ->
            priority t = Some (TaskData.priority data) ->
            deadline t = TaskData.deadline data ->
            estimatedTime t = Some (TaskData.estimatedTime data) ->
            handleSave (init (Some t)) = Some data).
  { intros t Ht Hd Hpr Hdl He.
    unfold handleSave in Hsave.
    destruct (String.eqb_spec (trim (Form.title f)) "") as [|Hne]; [done|].
    injection Hsave as <-.
    cbn [TaskData.title TaskData.description TaskData.priority TaskData.deadline
         TaskData.estimatedTime] in *.
    unfold handleSave, init. cbn [Form.title Form.desc Form.priority
                                    Form.deadline Form.estimatedTime].
    rewrite Ht, Hd, Hpr, Hdl, He, trim_idem.
    destruct (String.eqb_spec (trim (Form.title f)) ""); [done|].
    rewrite (hours_init _ (Form.estimatedTime f) eq_refl).
    destruct (Form.priority f) eqn:Ep; [done|]. done. }
  split; [by apply Hgen|]. split; [by apply Hgen|]. done.
Qed.

Lemma blank_title_is_refused_witness :
  let f := {| Form.title := "  "; Form.desc := "notes"; Form.priority := "low";
              Form.deadline := None; Form.estimatedTime := Some 2%Q |} in
  Forall (fun c => ws1 c = true) (String.list_ascii_of_string (Form.title f)) /\
  handleSave f = None.
Proof.
  assert (Hb : Forall (fun c => ws1 c = true) (String.list_ascii_of_string "  "))
    by (repeat (apply Forall_cons_2; [reflexivity|]); apply Forall_nil_2).
  split; [exact Hb|].
  exact (blank_title_is_refused
           {| Form.title := "  "; Form.desc := "notes"; Form.priority := "low";
              Form.deadline := None; Form.estimatedTime := Some 2%Q |} Hb).
Defined.

Lemma handleSave_trims_witness :
  let f := {| Form.title := " Plan sprint "; Form.desc := "notes";
              Form.priority := "low"; Form.deadline := Some 86400000;
              Form.estimatedTime := None |} in
  exists data : TaskData.t,
    handleSave f = Some data /\
    TaskData.title data = "Plan sprint" /\
    TaskData.title data <> "" /\
    trim (TaskData.title data) = TaskData.title data /\
    TaskData.description data = Form.desc f /\
    TaskData.priority data = Form.priority f /\
    TaskData.deadline data = Form.deadline f /\
    match Form.estimatedTime f with
    | Some h => if JS.truthy h then TaskData.estimatedTime data = h
                else TaskData.estimatedTime data = 0%Q
    | None => TaskData.estimatedTime data = 0%Q
    end.
Proof.
  eexists. split; [reflexivity|]. split; [reflexivity|].
  apply (handleSave_trims
           {| Form.title := " Plan sprint "; Form.desc := "notes";
              Form.priority := "low"; Form.deadline := Some 86400000;
              Form.estimatedTime := None |}).
  reflexivity.
Defined.

Lemma edit_without_change_witness :
  let f := {| Form.title := " Plan sprint "; Form.desc := "notes";
              Form.priority := "low"; Form.deadline := Some 86400000;
              Form.estimatedTime := Some 3%Q |} in
  exists data : TaskData.t,
    handleSave f = Some data /\
    Form.priority f <> "" /\
    handleSave (init (Some (Dashboard.newTask 5 data))) = Some data /\
    handleSave (init (Some (Dashboard.merge (updateDocs 0) data))) = Some data /\
    Dashboard.merge (Dashboard.newTask 5 data) data = Dashboard.newTask 5 data /\
    Dashboard.merge (Dashboard.merge (updateDocs 0) data) data
    = Dashboard.merge (updateDocs 0) data.
Proof.
  eexists. split; [reflexivity|]. split; [discriminate|].
  apply (edit_without_change
           {| Form.title := " Plan sprint "; Form.desc := "notes";
              Form.priority := "low"; Form.deadline := Some 86400000;
              Form.estimatedTime := Some 3%Q |} _ 5 (updateDocs 0));
    [reflexivity|discriminate].
Defined.

End ModalFacts.
